(** * Listing decision engine of ai-goofish-monitor

    A shallow embedding of
    - [src/keyword_rule_engine.py]  (keyword rule evaluator),
    - [src/domain/models/task.py]   (Task entity, Create and Update DTOs),
    - [src/config.py]               (AI runtime resolver),
    and the properties stated about them.

    Python text ([str]) is a sequence of Unicode code points.  The string
    operations of the interpreter that the sources call ([split], [strip],
    [join], [in], [str] of an integer) are written out below; [str.lower],
    whose Unicode tables are not part of the repository, is a parameter of the
    development, and so is the textual form of a float. *)

From Stdlib Require Import String Ascii.
From stdpp Require Import base numbers list option gmap.

Set Warnings "-clear-no-such-hyp".
Open Scope N_scope.

(** ** Python text *)

(** A character is its code point; [str] is code points in order. *)
Abbreviation char := N (only parsing).
Abbreviation pystr := (list N) (only parsing).

(** Reads a source literal (UTF-8 in this file) as code points. *)
Fixpoint utf8_decode (bs : list N) : pystr :=
  match bs with
  | [] => []
  | b :: r =>
      if b <? 128 then b :: utf8_decode r
      else if b <? 224 then
        match r with
        | c :: r' => ((b mod 32) * 64 + c mod 64) :: utf8_decode r'
        | _ => []
        end
      else if b <? 240 then
        match r with
        | c :: d :: r' =>
            ((b mod 16) * 4096 + (c mod 64) * 64 + d mod 64) :: utf8_decode r'
        | _ => []
        end
      else
        match r with
        | c :: d :: e :: r' =>
            ((b mod 8) * 262144 + (c mod 64) * 4096 + (d mod 64) * 64 + e mod 64)
              :: utf8_decode r'
        | _ => []
        end
  end.

Fixpoint bytes_of_string (s : string) : list N :=
  match s with
  | EmptyString => []
  | String a s' => N_of_ascii a :: bytes_of_string s'
  end.

Definition py (s : string) : pystr := utf8_decode (bytes_of_string s).

(** [bool(s)] for a string: non-empty. *)
Definition nonempty {A} (l : list A) : bool :=
  match l with [] => false | _ :: _ => true end.

(** The characters [str.split()] and [str.strip()] treat as whitespace
    (CPython's [_PyUnicode_IsWhitespace]). *)
Definition isspace (c : char) : bool :=
  ((9 <=? c) && (c <=? 13)) || ((28 <=? c) && (c <=? 32))
  || (c =? 133) || (c =? 160) || (c =? 5760)
  || ((8192 <=? c) && (c <=? 8202))
  || (c =? 8232) || (c =? 8233) || (c =? 8239) || (c =? 8287) || (c =? 12288).

(** [sep.join(parts)]. *)
Fixpoint join (sep : pystr) (parts : list pystr) : pystr :=
  match parts with
  | [] => []
  | [p] => p
  | p :: rest => p ++ sep ++ join sep rest
  end.

(** [s.split()]: the maximal runs of non-whitespace characters, in order.
    The scan goes from the right and keeps the word being read apart from the
    words already closed. *)
Definition flush (w : pystr) (ws : list pystr) : list pystr :=
  match w with [] => ws | _ :: _ => w :: ws end.

Fixpoint split_scan (s : pystr) : pystr * list pystr :=
  match s with
  | [] => ([], [])
  | c :: rest =>
      let '(w, ws) := split_scan rest in
      if isspace c then ([], flush w ws) else (c :: w, ws)
  end.

Definition str_split (s : pystr) : list pystr :=
  let '(w, ws) := split_scan s in flush w ws.

(** [s.strip()]. *)
Fixpoint lstrip (s : pystr) : pystr :=
  match s with
  | [] => []
  | c :: rest => if isspace c then lstrip rest else s
  end.

Definition rstrip (s : pystr) : pystr := reverse (lstrip (reverse s)).

Definition str_strip (s : pystr) : pystr := rstrip (lstrip s).

(** [needle in hay] for two strings: [needle] occurs as a contiguous run. *)
Fixpoint starts_with (p s : pystr) : bool :=
  match p, s with
  | [], _ => true
  | _ :: _, [] => false
  | a :: p', b :: s' => (a =? b) && starts_with p' s'
  end.

Fixpoint str_contains (needle hay : pystr) : bool :=
  starts_with needle hay
  || match hay with
     | [] => false
     | _ :: hay' => str_contains needle hay'
     end.

(** [str(n)] for an integer: decimal digits, a minus sign when negative. *)
Fixpoint digits (fuel : nat) (n : N) (acc : pystr) : pystr :=
  match fuel with
  | O => acc
  | S fuel' =>
      let acc' := (48 + n mod 10) :: acc in
      if n <? 10 then acc' else digits fuel' (n / 10) acc'
  end.

Definition str_nat (n : N) : pystr := digits (S (N.to_nat (N.log2 n))) n [].

Definition str_int (z : Z) : pystr :=
  match z with
  | Z0 => str_nat 0
  | Zpos p => str_nat (Npos p)
  | Zneg p => 45 :: str_nat (Npos p)
  end.

(** [str(b)] for a bool. *)
Definition str_bool (b : bool) : pystr :=
  if b then py "True" else py "False".

(** [str.lower] restricted to the letters A-Z; it agrees with Python on every
    text whose cased letters are all ASCII.  Used to run the model on concrete
    inputs. *)
Definition ascii_lower_char (c : char) : char :=
  if (65 <=? c) && (c <=? 90) then c + 32 else c.

Definition ascii_lower (s : pystr) : pystr := map ascii_lower_char s.

(** ** Values and failures *)

(** Exceptions the modelled code can raise. *)
Inductive exn :=
| AttributeError
| ValueError (msg : pystr)
| ValidationError (msg : pystr).

Inductive result (A : Type) :=
| Ok (a : A)
| Raise (e : exn).
Arguments Ok {A} a.
Arguments Raise {A} e.

Definition bind {A B} (r : result A) (k : A -> result B) : result B :=
  match r with
  | Ok a => k a
  | Raise e => Raise e
  end.

(** ** Rule groups and verdicts *)

(** Who decides for a task: [Literal["ai", "keyword"]]. *)
Inductive decision_mode := AI | KEYWORD.

#[global] Instance decision_mode_eq_dec : EqDecision decision_mode.
Proof. solve_decision. Defined.

(** [KeywordRuleGroup] (the pydantic model of [task.py]): the values of its
    three fields and the names of the fields that were given when it was
    constructed (pydantic's [__fields_set__], which [dict(exclude_unset=True)]
    reads). *)
Record KeywordRuleGroup := {
  name : option pystr;
  include_keywords : list pystr;
  exclude_keywords : list pystr;
  fields_set : gset pystr;
}.

(** The field names of [KeywordRuleGroup]. *)
Definition all_fields : gset pystr :=
  {[ py "name"; py "include_keywords"; py "exclude_keywords" ]}.

(** A rule group given as a [dict]: what [group.get(key)] returns for the three
    keys the engine reads ([None]: the key is absent or maps to [None]). *)
Record group_dict := {
  get_name : option pystr;
  get_include_keywords : option (list pystr);
  get_exclude_keywords : option (list pystr);
}.

(** The two representations [_extract_group_fields] accepts. *)
Inductive raw_group :=
| GroupDict (d : group_dict)
| GroupObject (o : KeywordRuleGroup).

(** The dict [_extract_group_fields] returns. *)
Record group_fields := {
  g_name : pystr;
  g_include_keywords : list pystr;
  g_exclude_keywords : list pystr;
}.

(** The dict [evaluate_keyword_rules] returns. *)
Record verdict := {
  analysis_source : pystr;
  is_recommended : bool;
  reason : pystr;
  matched_groups : list pystr;
  matched_keywords : list pystr;
  blocked_keywords : list pystr;
}.

(** Outcome of one iteration of the loop over the groups. *)
Inductive group_outcome :=
| GroupFailed (why : pystr)
| GroupMatched (v : verdict).

Section KeywordRuleEngine.

(** [str.lower]. *)
Variable str_lower : pystr -> pystr.
(** Floats, and [str] of a float. *)
Variable pyfloat : Type.
Variable float_str : pyfloat -> pystr.

(** The values a scraped record holds (parsed JSON). *)
#[warnings="-register-all"]
Inductive pyvalue :=
| VNone
| VStr (s : pystr)
| VInt (n : Z)
| VFloat (f : pyfloat)
| VBool (b : bool)
| VDict (items : list (pystr * pyvalue))
| VList (items : list pyvalue).

(** A [dict] with string keys, in insertion order. *)
Definition pydict : Type := list (pystr * pyvalue).

(** [d.get(key)]: [None] (here Rocq's) when the key is absent. *)
Fixpoint dict_get (d : pydict) (key : pystr) : option pyvalue :=
  match d with
  | [] => None
  | (k, v) :: d' => if decide (k = key) then Some v else dict_get d' key
  end.

(** [value.get(key)] on an arbitrary value: only a dict has the method. *)
Definition value_get (value : pyvalue) (key : pystr) : result pyvalue :=
  match value with
  | VDict d => Ok (default VNone (dict_get d key))
  | _ => Raise AttributeError
  end.

Definition normalize_text (value : option pystr) : pystr :=
  join (py " ") (str_split (str_lower (default [] value))).

(** The bucket is threaded through: the result is the bucket after the call. *)
Fixpoint _collect_text_fragments (value : pyvalue) (bucket : list pystr) : list pystr :=
  match value with
  | VNone => bucket
  | VStr s =>
      let text := str_strip s in
      if nonempty text then bucket ++ [text] else bucket
  | VInt n => bucket ++ [str_int n]
  | VFloat f => bucket ++ [float_str f]
  | VBool b => bucket ++ [str_bool b]
  | VDict items =>
      fold_left (fun b item => _collect_text_fragments (snd item) b) items bucket
  | VList items =>
      fold_left (fun b item => _collect_text_fragments item b) items bucket
  end.

Definition build_search_text (record : pydict) : result pystr :=
  let fragments := [] in
  let product_info := default (VDict []) (dict_get record (py "商品信息")) in
  let seller_info := default (VDict []) (dict_get record (py "卖家信息")) in
  bind (value_get product_info (py "商品标题")) (fun title =>
  let fragments := _collect_text_fragments title fragments in
  let fragments := _collect_text_fragments product_info fragments in
  let fragments := _collect_text_fragments seller_info fragments in
  Ok (normalize_text (Some (join (py " ") fragments)))).

(** One iteration of the loop of [_normalize_keywords] over the state
    [(normalized, seen)]. *)
Definition _normalize_keywords_step
    (st : list pystr * gset pystr) (raw : pystr) : list pystr * gset pystr :=
  let '(normalized, seen) := st in
  let text := normalize_text (Some (str_strip raw)) in
  if negb (nonempty text) || bool_decide (text ∈ seen) then st
  else (normalized ++ [text], seen ∪ {[ text ]}).

Definition _normalize_keywords (values : list pystr) : list pystr :=
  fst (fold_left _normalize_keywords_step values ([], ∅)).

Definition _extract_group_fields (group : raw_group) (fallback_name : pystr) : group_fields :=
  let '(name, include_keywords, exclude_keywords) :=
    match group with
    | GroupDict d =>
        (get_name d, default [] (get_include_keywords d),
         default [] (get_exclude_keywords d))
    | GroupObject o => (name o, include_keywords o, exclude_keywords o)
    end in
  let group_name :=
    match name with
    | Some (c :: n) => str_strip (c :: n)
    | _ => fallback_name
    end in
  {| g_name := group_name;
     g_include_keywords := _normalize_keywords include_keywords;
     g_exclude_keywords := _normalize_keywords exclude_keywords |}.

Definition negative_verdict (why : pystr) : verdict :=
  {| analysis_source := py "keyword";
     is_recommended := false;
     reason := why;
     matched_groups := [];
     matched_keywords := [];
     blocked_keywords := [] |}.

(** Body of the loop of [evaluate_keyword_rules] for one extracted group. *)
Definition evaluate_group (group : group_fields) (normalized_text : pystr) : group_outcome :=
  let include_keywords := g_include_keywords group in
  let exclude_keywords := g_exclude_keywords group in
  let group_name := g_name group in
  if negb (nonempty include_keywords) then
    GroupFailed (group_name ++ py ": 缺少包含关键词")
  else
    let missing := filter (fun kw => str_contains kw normalized_text = false) include_keywords in
    let blocked := filter (fun kw => str_contains kw normalized_text = true) exclude_keywords in
    if nonempty missing || nonempty blocked then
      let detail_parts := [] in
      let detail_parts :=
        if nonempty missing
        then detail_parts ++ [py "缺少 " ++ join (py ", ") missing] else detail_parts in
      let detail_parts :=
        if nonempty blocked
        then detail_parts ++ [py "命中排除词 " ++ join (py ", ") blocked] else detail_parts in
      GroupFailed (group_name ++ py ": " ++ join (py "; ") detail_parts)
    else
      GroupMatched
        {| analysis_source := py "keyword";
           is_recommended := true;
           reason := py "命中关键词规则：" ++ group_name
                     ++ py "（包含词全部满足，且未触发排除词）。";
           matched_groups := [group_name];
           matched_keywords := include_keywords;
           blocked_keywords := [] |}.

(** The fallback name of the group at position [index]. *)
Definition default_group_name (index : N) : pystr := py "规则组" ++ str_nat index.

(** The loop [for index, raw_group in enumerate(groups, start=1)] and the code
    after it; [index] is the position of the head of [groups]. *)
Fixpoint evaluate_groups (index : N) (groups : list raw_group) (normalized_text : pystr)
    (group_fail_reasons : list pystr) : verdict :=
  match groups with
  | [] =>
      negative_verdict
        (if nonempty group_fail_reasons
         then join (py "；") (take 3 group_fail_reasons)
         else py "所有关键词规则组均未命中。")
  | raw_group :: rest =>
      let group := _extract_group_fields raw_group (default_group_name index) in
      match evaluate_group group normalized_text with
      | GroupFailed why =>
          evaluate_groups (index + 1) rest normalized_text (group_fail_reasons ++ [why])
      | GroupMatched v => v
      end
  end.

Definition evaluate_keyword_rules (groups : list raw_group) (search_text : option pystr) : verdict :=
  let normalized_text := normalize_text search_text in
  if negb (nonempty normalized_text) then
    negative_verdict (py "可匹配文本为空，关键词规则无法执行。")
  else if negb (nonempty groups) then
    negative_verdict (py "未配置关键词规则分组。")
  else evaluate_groups 1 groups normalized_text [].

End KeywordRuleEngine.

Arguments VNone {pyfloat}.
Arguments VStr {pyfloat} s.
Arguments VInt {pyfloat} n.
Arguments VFloat {pyfloat} f.
Arguments VBool {pyfloat} b.
Arguments VDict {pyfloat} items.
Arguments VList {pyfloat} items.

(** ** Task entity and DTOs ([task.py]) *)

Definition _has_valid_keyword_groups (groups : list KeywordRuleGroup) : bool :=
  if negb (nonempty groups) then false
  else existsb (fun group => nonempty (include_keywords group)) groups.

(** A pydantic model is built by running the root validators its class
    declares, in order, over the validated field values; a [ValueError] raised
    by one of them surfaces as the [ValidationError] of the construction. *)
Definition run_root_validators {V} (validators : list (V -> result V)) (values : V) : result V :=
  match fold_left bind validators (Ok values) with
  | Raise (ValueError msg) => Raise (ValidationError msg)
  | r => r
  end.

(** A field of a model all of whose fields are optional: left unset by the
    caller, or set (possibly to [None]). *)
Inductive field (A : Type) :=
| Unset
| Set_ (v : option A).
Arguments Unset {A}.
Arguments Set_ {A} v.

(** [values.get(name)] in a root validator: an unset field holds its default,
    [None]. *)
Definition field_value {A} (f : field A) : option A :=
  match f with
  | Unset => None
  | Set_ v => v
  end.

(** [self.copy(update=update_data)], for one attribute: the attribute is
    replaced when [update_data] has it and kept otherwise.  The new value is
    stored as it is, without validation. *)
Definition copy_update {A} (current : option A) (f : field A) : option A :=
  match f with
  | Unset => current
  | Set_ v => v
  end.

(** A rule group as [dict(exclude_unset=True)] returns it: a plain dict with
    the keys of the fields that were set ([Unset]: the key is absent). *)
Record group_dump := {
  dump_name : field pystr;
  dump_include_keywords : field (list pystr);
  dump_exclude_keywords : field (list pystr);
}.

(** One entry of the dump: present when the field is in [__fields_set__]. *)
Definition dump_entry {A : Type} (key : pystr) (fields : gset pystr) (value : option A)
    : field A :=
  if bool_decide (key ∈ fields) then Set_ value else Unset.

(** [group.dict(exclude_unset=True)] for a [KeywordRuleGroup]. *)
Definition dict_exclude_unset (group : KeywordRuleGroup) : group_dump :=
  {| dump_name := dump_entry (py "name") (fields_set group) (name group);
     dump_include_keywords :=
       dump_entry (py "include_keywords") (fields_set group)
         (Some (include_keywords group));
     dump_exclude_keywords :=
       dump_entry (py "exclude_keywords") (fields_set group)
         (Some (exclude_keywords group)) |}.

(** What the attribute [keyword_rule_groups] of a [Task] holds, item by item:
    a model (after validation) or a plain dict (after [copy(update=...)],
    which stores the dumped update without validating it). *)
Inductive stored_group :=
| StoredModel (o : KeywordRuleGroup)
| StoredDict (d : group_dump).

(** The value [update.dict(exclude_unset=True)] holds for the field
    [keyword_rule_groups]: the nested models are dumped too. *)
Definition dict_exclude_unset_groups
    (f : field (list KeywordRuleGroup)) : field (list stored_group) :=
  match f with
  | Unset => Unset
  | Set_ None => Set_ None
  | Set_ (Some groups) =>
      Set_ (Some (map (fun group => StoredDict (dict_exclude_unset group)) groups))
  end.

(** A stored group as [_extract_group_fields] reads it: a model by its
    attributes, a dict by [get]. *)
Definition as_raw_group (g : stored_group) : raw_group :=
  match g with
  | StoredModel o => GroupObject o
  | StoredDict d =>
      GroupDict {| get_name := field_value (dump_name d);
                   get_include_keywords := field_value (dump_include_keywords d);
                   get_exclude_keywords := field_value (dump_exclude_keywords d) |}
  end.

(** [getattr(group, "include_keywords", None)] on a stored group: a plain dict
    has no such attribute. *)
Definition getattr_include_keywords (g : stored_group) : option (list pystr) :=
  match g with
  | StoredModel o => Some (include_keywords o)
  | StoredDict _ => None
  end.

(** [_has_valid_keyword_groups] on the groups a [Task] holds. *)
Definition _has_valid_keyword_groups_stored (groups : list stored_group) : bool :=
  if negb (nonempty groups) then false
  else existsb (fun group => nonempty (default [] (getattr_include_keywords group))) groups.

Module TaskCreate.

Record t := {
  task_name : pystr;
  enabled : bool;
  keyword : pystr;
  description : option pystr;
  max_pages : Z;
  personal_only : bool;
  min_price : option pystr;
  max_price : option pystr;
  cron : option pystr;
  ai_prompt_base_file : pystr;
  ai_prompt_criteria_file : pystr;
  account_state_file : option pystr;
  free_shipping : bool;
  new_publish_option : option pystr;
  region : option pystr;
  decision_mode : decision_mode;
  keyword_rule_groups : list KeywordRuleGroup;
}.

Section Price.
Variable pyfloat : Type.
Variable float_str : pyfloat -> pystr.

(** The [pre] validator of [min_price] and [max_price], over the raw input. *)
Definition convert_price_to_str (v : pyvalue pyfloat) : pyvalue pyfloat :=
  match v with
  | VNone => VNone
  | VStr s =>
      if bool_decide (s = py "") || bool_decide (s = py "null")
         || bool_decide (s = py "undefined")
      then VNone else v
  | VInt n => VStr (str_int n)
  | VFloat f => VStr (float_str f)
  | VBool b => VStr (str_bool b)
  | _ => v
  end.

End Price.

(** The values reach a root validator after field validation: [decision_mode]
    is one of the two literals (lower-case already) and [keyword_rule_groups]
    is a list, so only [description] can be [None]. *)
Definition validate_decision_mode_payload (values : t) : result t :=
  let mode := decision_mode values in
  let description := str_strip (default (py "") (description values)) in
  let keyword_groups := keyword_rule_groups values in
  if bool_decide (mode = AI) && negb (nonempty description) then
    Raise (ValueError (py "AI 判断模式下，详细需求(description)不能为空。"))
  else if bool_decide (mode = KEYWORD) && negb (_has_valid_keyword_groups keyword_groups) then
    Raise (ValueError (py "关键词判断模式下，至少需要一个包含关键词。"))
  else Ok values.

Definition root_validators : list (t -> result t) := [validate_decision_mode_payload].

(** Construction of a [TaskCreate] from validated field values. *)
Definition create (values : t) : result t := run_root_validators root_validators values.

End TaskCreate.

Module TaskUpdate.

Record t := {
  task_name : field pystr;
  enabled : field bool;
  keyword : field pystr;
  description : field pystr;
  max_pages : field Z;
  personal_only : field bool;
  min_price : field pystr;
  max_price : field pystr;
  cron : field pystr;
  ai_prompt_base_file : field pystr;
  ai_prompt_criteria_file : field pystr;
  account_state_file : field pystr;
  free_shipping : field bool;
  new_publish_option : field pystr;
  region : field pystr;
  decision_mode : field decision_mode;
  keyword_rule_groups : field (list KeywordRuleGroup);
  is_running : field bool;
}.

Section Price.
Variable pyfloat : Type.
Variable float_str : pyfloat -> pystr.

Definition convert_price_to_str (v : pyvalue pyfloat) : pyvalue pyfloat :=
  match v with
  | VNone => VNone
  | VStr s =>
      if bool_decide (s = py "") || bool_decide (s = py "null")
         || bool_decide (s = py "undefined")
      then VNone else v
  | VInt n => VStr (str_int n)
  | VFloat f => VStr (float_str f)
  | VBool b => VStr (str_bool b)
  | _ => v
  end.

End Price.

Definition validate_partial_keyword_payload (values : t) : result t :=
  let mode := field_value (decision_mode values) in
  let groups := field_value (keyword_rule_groups values) in
  let description := field_value (description values) in
  if bool_decide (mode = Some KEYWORD)
     && match groups with
        | Some groups => negb (_has_valid_keyword_groups groups)
        | None => false
        end
  then Raise (ValueError (py "关键词判断模式下，至少需要一个包含关键词。"))
  else if bool_decide (mode = Some AI)
     && match description with
        | Some description => negb (nonempty (str_strip description))
        | None => false
        end
  then Raise (ValueError (py "AI 判断模式下，详细需求(description)不能为空。"))
  else Ok values.

Definition root_validators : list (t -> result t) := [validate_partial_keyword_payload].

(** Construction of a [TaskUpdate] from validated field values. *)
Definition create (values : t) : result t := run_root_validators root_validators values.

End TaskUpdate.

Module Task.

(** Every attribute can hold [None]: [copy(update=...)] stores what the update
    sets without validating it, also for the attributes declared non-optional;
    for the same reason [keyword_rule_groups] can hold plain dicts. *)
Record t := {
  id : option Z;
  task_name : option pystr;
  enabled : option bool;
  keyword : option pystr;
  description : option pystr;
  max_pages : option Z;
  personal_only : option bool;
  min_price : option pystr;
  max_price : option pystr;
  cron : option pystr;
  ai_prompt_base_file : option pystr;
  ai_prompt_criteria_file : option pystr;
  account_state_file : option pystr;
  free_shipping : option bool;
  new_publish_option : option pystr;
  region : option pystr;
  decision_mode : option decision_mode;
  keyword_rule_groups : option (list stored_group);
  is_running : option bool;
}.

(** The class declares no validator. *)
Definition root_validators : list (t -> result t) := [].

(** Construction of a [Task] from validated field values. *)
Definition create (values : t) : result t := run_root_validators root_validators values.

(** [self.copy(update=update.dict(exclude_unset=True))]: the fields the update
    sets are overwritten with the values of the dumped update; these are the
    update's own values for the scalar fields and plain dicts for the rule
    groups. *)
Definition apply_update (self : t) (update : TaskUpdate.t) : t :=
  {| id := id self;
     task_name := copy_update (task_name self) (TaskUpdate.task_name update);
     enabled := copy_update (enabled self) (TaskUpdate.enabled update);
     keyword := copy_update (keyword self) (TaskUpdate.keyword update);
     description := copy_update (description self) (TaskUpdate.description update);
     max_pages := copy_update (max_pages self) (TaskUpdate.max_pages update);
     personal_only := copy_update (personal_only self) (TaskUpdate.personal_only update);
     min_price := copy_update (min_price self) (TaskUpdate.min_price update);
     max_price := copy_update (max_price self) (TaskUpdate.max_price update);
     cron := copy_update (cron self) (TaskUpdate.cron update);
     ai_prompt_base_file :=
       copy_update (ai_prompt_base_file self) (TaskUpdate.ai_prompt_base_file update);
     ai_prompt_criteria_file :=
       copy_update (ai_prompt_criteria_file self) (TaskUpdate.ai_prompt_criteria_file update);
     account_state_file :=
       copy_update (account_state_file self) (TaskUpdate.account_state_file update);
     free_shipping := copy_update (free_shipping self) (TaskUpdate.free_shipping update);
     new_publish_option :=
       copy_update (new_publish_option self) (TaskUpdate.new_publish_option update);
     region := copy_update (region self) (TaskUpdate.region update);
     decision_mode := copy_update (decision_mode self) (TaskUpdate.decision_mode update);
     keyword_rule_groups :=
       copy_update (keyword_rule_groups self)
         (dict_exclude_unset_groups (TaskUpdate.keyword_rule_groups update));
     is_running := copy_update (is_running self) (TaskUpdate.is_running update) |}.

(** Tasks as objects: a store from object identities to the objects' state.
    [apply_update] reads [self] and allocates the copy. *)
Abbreviation store := (gmap positive t).


End Task.

(** ** AI runtime resolver ([config.py]) *)

Definition GEMINI_OPENAI_COMPAT_BASE_URL : pystr :=
  py "https://generativelanguage.googleapis.com/v1beta/openai/".
Definition GEMINI_DEFAULT_MODEL_NAME : pystr := py "gemini-2.0-flash".

(** The dict [resolve_ai_runtime_config] returns. *)
Record ai_runtime := {
  api_key : option pystr;
  base_url : pystr;
  model_name : pystr;
  is_gemini_openai_compat : bool;
}.

(** [bool(x)] for [x] a string or [None]. *)
Definition truthy (x : option pystr) : bool :=
  match x with
  | Some (_ :: _) => true
  | _ => false
  end.

(** [x or y] for [x] a string or [None] and [y] a string. *)
Definition str_or (x : option pystr) (y : pystr) : pystr :=
  match x with
  | Some (c :: x') => c :: x'
  | _ => y
  end.

(** [x or y] for [x] and [y] each a string or [None]. *)
Definition opt_or (x y : option pystr) : option pystr :=
  if truthy x then x else y.

(** [env or os.environ]: the process environment [os_environ] is read when
    [env] is [None] or an empty mapping. *)
Definition env_or_environ
    (env : option (gmap pystr pystr)) (os_environ : gmap pystr pystr) : gmap pystr pystr :=
  match env with
  | Some e => if bool_decide (e = ∅) then os_environ else e
  | None => os_environ
  end.

Definition resolve_ai_runtime_config
    (env : option (gmap pystr pystr)) (os_environ : gmap pystr pystr) : ai_runtime :=
  let source := env_or_environ env os_environ in
  let openai_api_key := source !! py "OPENAI_API_KEY" in
  let gemini_api_key := source !! py "GEMINI_API_KEY" in
  let base_url := str_or (source !! py "OPENAI_BASE_URL") (py "") in
  let model_name := str_or (source !! py "OPENAI_MODEL_NAME") (py "") in
  let use_gemini_defaults := truthy gemini_api_key && negb (truthy openai_api_key) in
  let resolved_base_url :=
    str_or (Some base_url)
      (if use_gemini_defaults then GEMINI_OPENAI_COMPAT_BASE_URL else py "") in
  let resolved_model_name :=
    str_or (Some model_name)
      (if use_gemini_defaults then GEMINI_DEFAULT_MODEL_NAME else py "") in
  {| api_key := opt_or openai_api_key gemini_api_key;
     base_url := resolved_base_url;
     model_name := resolved_model_name;
     is_gemini_openai_compat := use_gemini_defaults |}.

(** ** The other functions of the three sources *)

(** *** Keyword lists at the DTO boundary ([task.py]) *)

(** [re.split(r"[\n,]+", value)]: the fields between maximal runs of newlines
    and commas; a run at either end leaves an empty field there. *)
Definition is_delimiter (c : char) : bool := (c =? 10) || (c =? 44).

Fixpoint re_split_scan (s : pystr) : pystr * list pystr :=
  match s with
  | [] => ([], [])
  | c :: rest =>
      let '(w, ws) := re_split_scan rest in
      if is_delimiter c then
        match rest with
        | d :: _ => if is_delimiter d then (w, ws) else ([], w :: ws)
        | [] => ([], w :: ws)
        end
      else (c :: w, ws)
  end.

Definition re_split_delimiters (s : pystr) : list pystr :=
  let '(w, ws) := re_split_scan s in w :: ws.

(** What a keyword field receives: [None], a list of strings, one delimited
    string, or another scalar (an integer). *)
Inductive keyword_input :=
| KwNone
| KwList (items : list pystr)
| KwStr (s : pystr)
| KwInt (n : Z).

Section KeywordValues.

Variable str_lower : pystr -> pystr.

(** One iteration of the loop of [_normalize_keyword_values] over the state
    [(normalized, seen)]. *)
Definition _normalize_keyword_values_step
    (st : list pystr * gset pystr) (item : pystr) : list pystr * gset pystr :=
  let '(normalized, seen) := st in
  let text := str_strip item in
  if negb (nonempty text) then st
  else
    let dedup_key := str_lower text in
    if bool_decide (dedup_key ∈ seen) then st
    else (normalized ++ [text], seen ∪ {[ dedup_key ]}).

Definition _normalize_keyword_values (value : keyword_input) : list pystr :=
  match value with
  | KwNone => []
  | _ =>
      let raw_values :=
        match value with
        | KwList items => items
        | KwStr s => re_split_delimiters s
        | KwInt n => [str_int n]
        | KwNone => []
        end in
      fst (fold_left _normalize_keyword_values_step raw_values ([], ∅))
  end.

(** The validators of [KeywordRuleGroup]. *)
Definition normalize_name (v : option pystr) : option pystr :=
  match v with
  | None => None
  | Some s => let text := str_strip s in if nonempty text then Some text else None
  end.

Definition normalize_keyword_list (v : keyword_input) : list pystr :=
  _normalize_keyword_values v.

(** Construction of a [KeywordRuleGroup] from raw values of its three fields. *)
Definition KeywordRuleGroup_create
    (raw_name : option pystr) (raw_include raw_exclude : keyword_input) : KeywordRuleGroup :=
  {| name := normalize_name raw_name;
     include_keywords := normalize_keyword_list raw_include;
     exclude_keywords := normalize_keyword_list raw_exclude;
     fields_set := all_fields |}.

End KeywordValues.

(** *** Lifecycle predicates of [Task] *)

(** [bool(x)] for an attribute that holds a bool or [None]. *)
Definition is_true (x : option bool) : bool := default false x.

(** The truth value of [self.enabled and not self.is_running]. *)
Definition can_start (self : Task.t) : bool :=
  is_true (Task.enabled self) && negb (is_true (Task.is_running self)).

(** The truth value of [self.is_running]. *)
Definition can_stop (self : Task.t) : bool := is_true (Task.is_running self).

(** *** [TaskGenerateRequest] *)

Module TaskGenerateRequest.

Record t := {
  task_name : pystr;
  keyword : pystr;
  description : option pystr;
  personal_only : bool;
  min_price : option pystr;
  max_price : option pystr;
  max_pages : Z;
  cron : option pystr;
  account_state_file : option pystr;
  free_shipping : bool;
  new_publish_option : option pystr;
  region : option pystr;
  decision_mode : decision_mode;
  keyword_rule_groups : list KeywordRuleGroup;
}.

Section Validators.
Variable pyfloat : Type.
Variable float_str : pyfloat -> pystr.

Definition convert_price_to_str (v : pyvalue pyfloat) : pyvalue pyfloat :=
  match v with
  | VNone => VNone
  | VStr s =>
      if bool_decide (s = py "") || bool_decide (s = py "null")
         || bool_decide (s = py "undefined")
      then VNone else v
  | VInt n => VStr (str_int n)
  | VFloat f => VStr (float_str f)
  | VBool b => VStr (str_bool b)
  | _ => v
  end.

(** The [pre] validator of [cron]. *)
Definition empty_str_to_none (v : pyvalue pyfloat) : pyvalue pyfloat :=
  match v with
  | VStr s =>
      if bool_decide (s = py "") || bool_decide (s = py "null")
         || bool_decide (s = py "undefined")
      then VNone else v
  | _ => v
  end.

(** The [pre] validator of [account_state_file]. *)
Definition empty_account_to_none (v : pyvalue pyfloat) : pyvalue pyfloat :=
  match v with
  | VStr s =>
      if bool_decide (s = py "") || bool_decide (s = py "null")
         || bool_decide (s = py "undefined")
      then VNone else v
  | _ => v
  end.

(** The [pre] validator of [new_publish_option] and [region]. *)
Definition empty_str_to_none_for_strings (v : pyvalue pyfloat) : pyvalue pyfloat :=
  match v with
  | VStr s =>
      if bool_decide (s = py "") || bool_decide (s = py "null")
         || bool_decide (s = py "undefined")
      then VNone else v
  | _ => v
  end.

End Validators.

Definition validate_decision_mode_payload (values : t) : result t :=
  let mode := decision_mode values in
  let description := str_strip (default (py "") (description values)) in
  let keyword_groups := keyword_rule_groups values in
  if bool_decide (mode = AI) && negb (nonempty description) then
    Raise (ValueError (py "AI 判断模式下，详细需求(description)不能为空。"))
  else if bool_decide (mode = KEYWORD) && negb (_has_valid_keyword_groups keyword_groups) then
    Raise (ValueError (py "关键词判断模式下，至少需要一个包含关键词。"))
  else Ok values.

Definition root_validators : list (t -> result t) := [validate_decision_mode_payload].

(** Construction of a [TaskGenerateRequest] from validated field values. *)
Definition create (values : t) : result t := run_root_validators root_validators values.

End TaskGenerateRequest.

(** *** The AI client and its request parameters ([config.py]) *)

(** [all([BASE_URL, MODEL_NAME])]: the module creates the client only then. *)
Definition ai_config_complete (r : ai_runtime) : bool :=
  nonempty (base_url r) && nonempty (model_name r).

Section RequestParams.

(** The two flags the module reads from the environment. *)
Variable ENABLE_THINKING : bool.
Variable ENABLE_RESPONSE_FORMAT : bool.
Variable pyfloat : Type.

(** [kwargs] is the dict of the call's keyword arguments. *)
Definition get_ai_request_params
    (kwargs : gmap pystr (pyvalue pyfloat)) : gmap pystr (pyvalue pyfloat) :=
  let kwargs :=
    if ENABLE_THINKING
    then <[py "extra_body" := VDict [(py "enable_thinking", VBool false)]]> kwargs
    else kwargs in
  let kwargs :=
    if negb ENABLE_RESPONSE_FORMAT
       && bool_decide (is_Some (kwargs !! py "response_format"))
    then delete (py "response_format") kwargs
    else kwargs in
  kwargs.

End RequestParams.

(** *** Leaves of a record *)

(** [leaf] is [value] itself or lies below it, through the values of dicts and
    the items of lists. *)
Inductive reaches {pyfloat} : pyvalue pyfloat -> pyvalue pyfloat -> Prop :=
| reaches_here value : reaches value value
| reaches_dict items key value leaf :
    (key, value) ∈ items -> reaches value leaf -> reaches (VDict items) leaf
| reaches_list items value leaf :
    value ∈ items -> reaches value leaf -> reaches (VList items) leaf.

(** ** Words of the specification *)

(** [needle] is a contiguous substring of [hay]. *)
Definition is_substring (needle hay : pystr) : Prop :=
  exists l r, hay = l ++ needle ++ r.

(** The group matches the text: it has include keywords, each of them is a
    substring of the text, and no exclude keyword is. *)
Definition group_matches (group : group_fields) (text : pystr) : Prop :=
  g_include_keywords group <> []
  /\ (forall kw, kw ∈ g_include_keywords group -> is_substring kw text)
  /\ (forall kw, kw ∈ g_exclude_keywords group -> ~ is_substring kw text).

(** Blank text: nothing but whitespace. *)
Definition blank (s : pystr) : Prop := Forall (fun c => isspace c = true) s.

(** Text without any whitespace, and a word: such a text that is not empty. *)
Definition spaceless (s : pystr) : Prop := Forall (fun c => isspace c = false) s.
Definition word (w : pystr) : Prop := w <> [] /\ spaceless w.

(** Whitespace-collapsed text: no whitespace at either end and no two
    whitespace characters in a row. *)
Definition whitespace_collapsed (s : pystr) : Prop :=
  (forall c, head s = Some c -> isspace c = false)
  /\ (forall c, last s = Some c -> isspace c = false)
  /\ (forall i c d, s !! i = Some c -> s !! S i = Some d ->
      ~ (isspace c = true /\ isspace d = true)).

(** No group of [groups] has an include keyword. *)
Definition no_include_keywords (groups : list KeywordRuleGroup) : Prop :=
  forall group, group ∈ groups -> include_keywords group = [].

(** The include keywords a stored group carries, in either form. *)
Definition stored_include_keywords (g : stored_group) : list pystr :=
  match g with
  | StoredModel o => include_keywords o
  | StoredDict d => default [] (field_value (dump_include_keywords d))
  end.

(** The prerequisite of the task's decision mode is not met: AI mode with a
    blank (or no) description, or keyword mode without any include keyword. *)
Definition prerequisite_unsatisfied (task : Task.t) : Prop :=
  (Task.decision_mode task = Some AI
   /\ blank (default [] (Task.description task)))
  \/ (Task.decision_mode task = Some KEYWORD
      /\ forall group, group ∈ default [] (Task.keyword_rule_groups task) ->
           stored_include_keywords group = []).



(** What the specification says of the price normalization [conv]. *)
Definition normalizes_price {pyfloat} (float_str : pyfloat -> pystr)
    (conv : pyvalue pyfloat -> pyvalue pyfloat) : Prop :=
  conv (VStr (py "")) = VNone
  /\ conv (VStr (py "null")) = VNone
  /\ conv (VStr (py "undefined")) = VNone
  /\ conv VNone = VNone
  /\ (forall n, conv (VInt n) = VStr (str_int n))
  /\ (forall b, conv (VBool b) = VStr (str_bool b))
  /\ (forall f, conv (VFloat f) = VStr (float_str f))
  /\ (forall s, s <> py "" -> s <> py "null" -> s <> py "undefined" ->
      conv (VStr s) = VStr s)
  /\ (forall v, conv (conv v) = conv v).

(** Inputs used to run the model. *)
Definition task_ai_without_description : Task.t :=
  {| Task.id := Some 1%Z;
     Task.task_name := Some (py "Sony A7M4");
     Task.enabled := Some true;
     Task.keyword := Some (py "a7m4");
     Task.description := Some (py "");
     Task.max_pages := Some 3%Z;
     Task.personal_only := Some true;
     Task.min_price := None;
     Task.max_price := None;
     Task.cron := None;
     Task.ai_prompt_base_file := Some (py "prompts/base_prompt.txt");
     Task.ai_prompt_criteria_file := Some (py "prompts/a7m4_criteria.txt");
     Task.account_state_file := None;
     Task.free_shipping := Some true;
     Task.new_publish_option := None;
     Task.region := None;
     Task.decision_mode := Some AI;
     Task.keyword_rule_groups := Some [];
     Task.is_running := Some false |}.

Definition camera_group : KeywordRuleGroup :=
  {| name := Some (py "组1");
     include_keywords := [py "a7m4"];
     exclude_keywords := [py "面交"];
     fields_set := all_fields |}.

(** [KeywordRuleGroup(include_keywords=["a7m4"])]: the other two fields are
    left to their defaults. *)
Definition include_only_group : KeywordRuleGroup :=
  {| name := None;
     include_keywords := [py "a7m4"];
     exclude_keywords := [];
     fields_set := {[ py "include_keywords" ]} |}.

(** A validated Task in keyword mode: its rule group is a model. *)
Definition task_keyword_with_model : Task.t :=
  {| Task.id := Some 2%Z;
     Task.task_name := Some (py "Sony A7M4");
     Task.enabled := Some true;
     Task.keyword := Some (py "a7m4");
     Task.description := Some (py "");
     Task.max_pages := Some 3%Z;
     Task.personal_only := Some true;
     Task.min_price := None;
     Task.max_price := None;
     Task.cron := None;
     Task.ai_prompt_base_file := Some (py "prompts/base_prompt.txt");
     Task.ai_prompt_criteria_file := Some (py "prompts/a7m4_criteria.txt");
     Task.account_state_file := None;
     Task.free_shipping := Some true;
     Task.new_publish_option := None;
     Task.region := None;
     Task.decision_mode := Some KEYWORD;
     Task.keyword_rule_groups := Some [StoredModel include_only_group];
     Task.is_running := Some false |}.

Definition task_ai_with_description : Task.t :=
  Task.apply_update task_ai_without_description
    {| TaskUpdate.task_name := Unset; TaskUpdate.enabled := Unset;
       TaskUpdate.keyword := Unset;
       TaskUpdate.description := Set_ (Some (py "全画幅相机，成色好"));
       TaskUpdate.max_pages := Unset; TaskUpdate.personal_only := Unset;
       TaskUpdate.min_price := Unset; TaskUpdate.max_price := Unset;
       TaskUpdate.cron := Unset; TaskUpdate.ai_prompt_base_file := Unset;
       TaskUpdate.ai_prompt_criteria_file := Unset;
       TaskUpdate.account_state_file := Unset; TaskUpdate.free_shipping := Unset;
       TaskUpdate.new_publish_option := Unset; TaskUpdate.region := Unset;
       TaskUpdate.decision_mode := Unset;
       TaskUpdate.keyword_rule_groups := Set_ (Some [camera_group]);
       TaskUpdate.is_running := Unset |}.

(** An update that supplies [decision_mode] only. *)
Definition update_mode (m : decision_mode) : TaskUpdate.t :=
  {| TaskUpdate.task_name := Unset; TaskUpdate.enabled := Unset;
     TaskUpdate.keyword := Unset; TaskUpdate.description := Unset;
     TaskUpdate.max_pages := Unset; TaskUpdate.personal_only := Unset;
     TaskUpdate.min_price := Unset; TaskUpdate.max_price := Unset;
     TaskUpdate.cron := Unset; TaskUpdate.ai_prompt_base_file := Unset;
     TaskUpdate.ai_prompt_criteria_file := Unset;
     TaskUpdate.account_state_file := Unset; TaskUpdate.free_shipping := Unset;
     TaskUpdate.new_publish_option := Unset; TaskUpdate.region := Unset;
     TaskUpdate.decision_mode := Set_ (Some m);
     TaskUpdate.keyword_rule_groups := Unset;
     TaskUpdate.is_running := Unset |}.

(** An update that supplies [keyword_rule_groups] only. *)
Definition update_groups (groups : list KeywordRuleGroup) : TaskUpdate.t :=
  {| TaskUpdate.task_name := Unset; TaskUpdate.enabled := Unset;
     TaskUpdate.keyword := Unset; TaskUpdate.description := Unset;
     TaskUpdate.max_pages := Unset; TaskUpdate.personal_only := Unset;
     TaskUpdate.min_price := Unset; TaskUpdate.max_price := Unset;
     TaskUpdate.cron := Unset; TaskUpdate.ai_prompt_base_file := Unset;
     TaskUpdate.ai_prompt_criteria_file := Unset;
     TaskUpdate.account_state_file := Unset; TaskUpdate.free_shipping := Unset;
     TaskUpdate.new_publish_option := Unset; TaskUpdate.region := Unset;
     TaskUpdate.decision_mode := Unset;
     TaskUpdate.keyword_rule_groups := Set_ (Some groups);
     TaskUpdate.is_running := Unset |}.

(** The record and the text of the repository's unit tests. *)
Definition sample_float_str (_ : unit) : pystr := py "19.5".

Definition sample_record : pydict unit :=
  [ (py "商品信息",
     VDict [ (py "商品标题", VStr (py "Sony A7M4 全画幅相机"));
             (py "当前售价", VStr (py "10000"));
             (py "商品标签", VList [VStr (py "验货宝"); VStr (py "包邮")]) ]);
    (py "卖家信息",
     VDict [ (py "卖家昵称", VStr (py "摄影器材店"));
             (py "卖家个性签名", VStr (py "可验机，支持同城面交")) ]) ].

Definition sample_text : pystr :=
  py "sony a7m4 全画幅相机 sony a7m4 全画幅相机 10000 验货宝 包邮 摄影器材店 可验机，支持同城面交".

(** A rule group given as a dict with the three keys. *)
Definition dict_group (n : string) (include exclude : list string) : raw_group :=
  GroupDict {| get_name := Some (py n);
               get_include_keywords := Some (map py include);
               get_exclude_keywords := Some (map py exclude) |}.

Definition group_canon : raw_group := dict_group "组1" ["a7m4"; "佳能"]%string [].
Definition group_verified : raw_group := dict_group "组2" ["a7m4"; "验货宝"]%string [].
Definition group_no_meeting : raw_group := dict_group "组1" ["a7m4"]%string ["面交"]%string.
Definition group_upper : raw_group := dict_group "组1" ["SONY"; "A7M4"]%string [].

(** An environment from literal names and values. *)
Definition env_of (l : list (string * string)) : gmap pystr pystr :=
  list_to_map (map (fun kv => (py kv.1, py kv.2)) l).

(** The decision payload meets the prerequisite of its mode. *)
Definition decision_payload_ok (mode : decision_mode) (description : option pystr)
    (groups : list KeywordRuleGroup) : Prop :=
  match mode with
  | AI => ~ blank (default [] description)
  | KEYWORD => ~ no_include_keywords groups
  end.

(** The fields of the group that were not given hold their defaults, as in a
    model built by validation. *)
Definition defaults_where_unset (group : KeywordRuleGroup) : Prop :=
  (py "name" ∉ fields_set group -> name group = None)
  /\ (py "include_keywords" ∉ fields_set group -> include_keywords group = [])
  /\ (py "exclude_keywords" ∉ fields_set group -> exclude_keywords group = []).

(** At most one of two update fields is set. *)
Definition unset_in_one {A} (f g : field A) : Prop := f = Unset \/ g = Unset.

(** Two updates that set no field in common. *)
Definition touch_different_fields (u1 u2 : TaskUpdate.t) : Prop :=
  unset_in_one (TaskUpdate.task_name u1) (TaskUpdate.task_name u2)
  /\ unset_in_one (TaskUpdate.enabled u1) (TaskUpdate.enabled u2)
  /\ unset_in_one (TaskUpdate.keyword u1) (TaskUpdate.keyword u2)
  /\ unset_in_one (TaskUpdate.description u1) (TaskUpdate.description u2)
  /\ unset_in_one (TaskUpdate.max_pages u1) (TaskUpdate.max_pages u2)
  /\ unset_in_one (TaskUpdate.personal_only u1) (TaskUpdate.personal_only u2)
  /\ unset_in_one (TaskUpdate.min_price u1) (TaskUpdate.min_price u2)
  /\ unset_in_one (TaskUpdate.max_price u1) (TaskUpdate.max_price u2)
  /\ unset_in_one (TaskUpdate.cron u1) (TaskUpdate.cron u2)
  /\ unset_in_one (TaskUpdate.ai_prompt_base_file u1) (TaskUpdate.ai_prompt_base_file u2)
  /\ unset_in_one (TaskUpdate.ai_prompt_criteria_file u1)
       (TaskUpdate.ai_prompt_criteria_file u2)
  /\ unset_in_one (TaskUpdate.account_state_file u1) (TaskUpdate.account_state_file u2)
  /\ unset_in_one (TaskUpdate.free_shipping u1) (TaskUpdate.free_shipping u2)
  /\ unset_in_one (TaskUpdate.new_publish_option u1) (TaskUpdate.new_publish_option u2)
  /\ unset_in_one (TaskUpdate.region u1) (TaskUpdate.region u2)
  /\ unset_in_one (TaskUpdate.decision_mode u1) (TaskUpdate.decision_mode u2)
  /\ unset_in_one (TaskUpdate.keyword_rule_groups u1) (TaskUpdate.keyword_rule_groups u2)
  /\ unset_in_one (TaskUpdate.is_running u1) (TaskUpdate.is_running u2).

(** An update that supplies [is_running] only. *)
Definition update_running (running : bool) : TaskUpdate.t :=
  {| TaskUpdate.task_name := Unset; TaskUpdate.enabled := Unset;
     TaskUpdate.keyword := Unset; TaskUpdate.description := Unset;
     TaskUpdate.max_pages := Unset; TaskUpdate.personal_only := Unset;
     TaskUpdate.min_price := Unset; TaskUpdate.max_price := Unset;
     TaskUpdate.cron := Unset; TaskUpdate.ai_prompt_base_file := Unset;
     TaskUpdate.ai_prompt_criteria_file := Unset;
     TaskUpdate.account_state_file := Unset; TaskUpdate.free_shipping := Unset;
     TaskUpdate.new_publish_option := Unset; TaskUpdate.region := Unset;
     TaskUpdate.decision_mode := Unset;
     TaskUpdate.keyword_rule_groups := Unset;
     TaskUpdate.is_running := Set_ (Some running) |}.

(** An update that supplies [decision_mode] and [keyword_rule_groups]. *)
Definition update_mode_and_groups (m : decision_mode) (groups : list KeywordRuleGroup)
    : TaskUpdate.t :=
  {| TaskUpdate.task_name := Unset; TaskUpdate.enabled := Unset;
     TaskUpdate.keyword := Unset; TaskUpdate.description := Unset;
     TaskUpdate.max_pages := Unset; TaskUpdate.personal_only := Unset;
     TaskUpdate.min_price := Unset; TaskUpdate.max_price := Unset;
     TaskUpdate.cron := Unset; TaskUpdate.ai_prompt_base_file := Unset;
     TaskUpdate.ai_prompt_criteria_file := Unset;
     TaskUpdate.account_state_file := Unset; TaskUpdate.free_shipping := Unset;
     TaskUpdate.new_publish_option := Unset; TaskUpdate.region := Unset;
     TaskUpdate.decision_mode := Set_ (Some m);
     TaskUpdate.keyword_rule_groups := Set_ (Some groups);
     TaskUpdate.is_running := Unset |}.

(** * Properties *)

(** ** Text operations *)

Lemma starts_with_spec p s : starts_with p s = true <-> exists r, s = p ++ r.
Proof.
  revert s. induction p as [|a p IH]; intros s; simpl.
  - split; eauto.
  - destruct s as [|b s].
    + split; [discriminate | intros [r Hr]; discriminate].
    + rewrite andb_true_iff, N.eqb_eq, IH. split.
      * intros [-> [r ->]]. eauto.
      * intros [r Hr]. injection Hr as -> ->. eauto.
Qed.

Lemma str_contains_spec needle hay :
  str_contains needle hay = true <-> is_substring needle hay.
Proof.
  unfold is_substring. induction hay as [|c hay IH].
  - simpl. rewrite orb_false_r, starts_with_spec. split.
    + intros [r Hr]. exists [], r. done.
    + intros [l [r Hr]]. destruct l; [eauto | discriminate].
  - cbn [str_contains]. rewrite orb_true_iff, starts_with_spec, IH. split.
    + intros [[r Hr] | [l [r Hr]]].
      * exists [], r. done.
      * exists (c :: l), r. rewrite Hr. done.
    + intros [l [r Hr]]. destruct l as [|c' l].
      * left. eauto.
      * right. injection Hr as _ Hr. eauto.
Qed.

Lemma nonempty_true {A} (l : list A) : nonempty l = true <-> l <> [].
Proof. destruct l; simpl; naive_solver. Qed.

Lemma nonempty_false {A} (l : list A) : nonempty l = false <-> l = [].
Proof. destruct l; simpl; naive_solver. Qed.

Lemma lstrip_nil s : lstrip s = [] <-> blank s.
Proof.
  unfold blank. induction s as [|c s IH]; simpl.
  - split; auto.
  - destruct (isspace c) eqn:Hc.
    + rewrite IH. split; [by constructor | by inversion 1].
    + split; [discriminate | inversion 1; congruence].
Qed.

Lemma lstrip_blank_or_head s :
  lstrip s = [] \/ exists c r, lstrip s = c :: r /\ isspace c = false.
Proof.
  induction s as [|c s IH]; simpl; [by left|].
  destruct (isspace c) eqn:Hc; [done | right; eauto].
Qed.

Lemma str_strip_nil s : str_strip s = [] <-> blank s.
Proof.
  unfold str_strip, rstrip. split.
  - intros H. apply (f_equal reverse) in H. rewrite reverse_involutive in H.
    apply lstrip_nil in H. unfold blank in H. rewrite Forall_reverse in H.
    destruct (lstrip_blank_or_head s) as [Hs | (c & r & Hs & Hc)].
    + by apply lstrip_nil.
    + rewrite Hs in H. inversion H; congruence.
  - intros H. apply lstrip_nil in H. rewrite H. done.
Qed.

Lemma digits_head fuel n acc :
  exists d rest, digits (S fuel) n acc = d :: rest /\ 48 <= d <= 57.
Proof.
  revert n acc. induction fuel as [|fuel IH]; intros n acc.
  - exists (48 + n mod 10), acc. split.
    + simpl. by destruct (n <? 10).
    + assert (n mod 10 < 10) by (apply N.mod_lt; lia). generalize dependent (n mod 10). intros. lia.
  - change (digits (S (S fuel)) n acc)
      with (if n <? 10 then (48 + n mod 10) :: acc
            else digits (S fuel) (n / 10) ((48 + n mod 10) :: acc)).
    destruct (n <? 10); [|apply IH].
    exists (48 + n mod 10), acc. split; [done|]. assert (n mod 10 < 10) by (apply N.mod_lt; lia). generalize dependent (n mod 10). intros. lia.
Qed.

Lemma str_int_head z :
  exists d rest, str_int z = d :: rest /\ (d = 45 \/ 48 <= d <= 57).
Proof.
  destruct z; simpl; unfold str_nat.
  - destruct (digits_head (N.to_nat (N.log2 0)) 0 []) as (d & r & -> & H). eauto.
  - destruct (digits_head (N.to_nat (N.log2 (N.pos p))) (N.pos p) []) as (d & r & -> & H). eauto.
  - eauto.
Qed.


(** *** Splitting at whitespace *)

Lemma flush_app w ws ws' : flush w (ws ++ ws') = flush w ws ++ ws'.
Proof. by destruct w. Qed.

Lemma split_scan_spaceless w : spaceless w -> split_scan w = (w, []).
Proof.
  induction 1 as [|c w Hc _ IH]; [done|].
  cbn [split_scan]. rewrite IH, Hc. done.
Qed.

Lemma split_scan_app x c y :
  isspace c = true ->
  split_scan (x ++ c :: y) = ((split_scan x).1, (split_scan x).2 ++ str_split y).
Proof.
  intros Hc. induction x as [|d x IH].
  - cbn [app split_scan fst snd]. unfold str_split.
    destruct (split_scan y) as [w ws]. rewrite Hc. done.
  - cbn [app split_scan]. rewrite IH. destruct (split_scan x) as [w ws].
    cbn [fst snd]. destruct (isspace d); cbn [fst snd]; [|done].
    by rewrite flush_app.
Qed.

Lemma str_split_app_space x c y :
  isspace c = true -> str_split (x ++ c :: y) = str_split x ++ str_split y.
Proof.
  intros Hc. unfold str_split at 1 2. rewrite split_scan_app by done.
  destruct (split_scan x) as [w ws]. cbn [fst snd]. apply flush_app.
Qed.

Lemma str_split_spaceless w : spaceless w -> str_split w = flush w [].
Proof. intros Hw. unfold str_split. by rewrite split_scan_spaceless. Qed.

Lemma str_split_cons_space c y : isspace c = true -> str_split (c :: y) = str_split y.
Proof. apply (str_split_app_space [] c y). Qed.

Lemma str_split_blank ws : blank ws -> str_split ws = [].
Proof.
  induction 1 as [|c ws Hc _ IH]; [done|].
  by rewrite str_split_cons_space.
Qed.

Lemma str_split_blank_prefix ws y : blank ws -> str_split (ws ++ y) = str_split y.
Proof.
  induction 1 as [|c ws Hc _ IH]; [done|].
  cbn [app]. by rewrite str_split_cons_space.
Qed.

Lemma str_split_blank_suffix y ws : blank ws -> str_split (y ++ ws) = str_split y.
Proof.
  intros Hws. destruct Hws as [|c ws Hc Hws]; [by rewrite app_nil_r|].
  rewrite str_split_app_space by done.
  rewrite (str_split_blank ws Hws). by rewrite app_nil_r.
Qed.

Lemma split_scan_words s :
  spaceless (split_scan s).1 /\ Forall word (split_scan s).2.
Proof.
  induction s as [|c s [IHw IHws]]; [by split; constructor|].
  cbn [split_scan]. destruct (split_scan s) as [w ws]. cbn [fst snd] in *.
  destruct (isspace c) eqn:Hc; cbn [fst snd].
  - split; [constructor|]. destruct w; cbn [flush]; [done|].
    constructor; [by split | done].
  - split; [by constructor | done].
Qed.

Lemma str_split_words s : Forall word (str_split s).
Proof.
  unfold str_split. destruct (split_scan_words s) as [Hw Hws].
  destruct (split_scan s) as [w ws]. cbn [fst snd] in *.
  destruct w; cbn [flush]; [done|]. constructor; [by split | done].
Qed.

(** A text is free of whitespace or has a first whitespace character. *)
Lemma first_space s :
  spaceless s
  \/ exists w c rest, s = w ++ c :: rest /\ spaceless w /\ isspace c = true.
Proof.
  induction s as [|a s IH]; [left; constructor|].
  destruct (isspace a) eqn:Ha.
  - right. exists [], a, s. split; [done|]. split; [constructor | done].
  - destruct IH as [Hs | (w & c & rest & -> & Hw & Hc)].
    + left. by constructor.
    + right. exists (a :: w), c, rest. split; [done|]. split; [by constructor | done].
Qed.

Lemma first_space_unique w1 c1 r1 w2 c2 r2 :
  w1 ++ c1 :: r1 = w2 ++ c2 :: r2 ->
  spaceless w1 -> spaceless w2 -> isspace c1 = true -> isspace c2 = true ->
  w1 = w2 /\ r1 = r2.
Proof.
  intros Heq Hw1. revert w2 Heq.
  induction Hw1 as [|a w1 Ha _ IH]; intros w2 Heq Hw2 Hc1 Hc2.
  - destruct Hw2 as [|b w2 Hb _]; cbn in Heq.
    + by injection Heq as _ ->.
    + injection Heq as -> _. congruence.
  - destruct Hw2 as [|b w2 Hb Hw2]; cbn in Heq.
    + injection Heq as -> _. congruence.
    + injection Heq as -> Heq. destruct (IH w2 Heq Hw2 Hc1 Hc2) as [-> ->]. done.
Qed.

(** *** Stripping *)

Lemma lstrip_decomp s : exists ws, blank ws /\ s = ws ++ lstrip s.
Proof.
  induction s as [|c s (ws & Hws & IH)]; [exists []; split; [constructor | done]|].
  cbn [lstrip]. destruct (isspace c) eqn:Hc.
  - exists (c :: ws). split; [by constructor|]. cbn. by rewrite <- IH.
  - exists []. split; [constructor | done].
Qed.

Lemma rstrip_decomp s : exists ws, blank ws /\ s = rstrip s ++ ws.
Proof.
  destruct (lstrip_decomp (reverse s)) as (ws & Hws & Hs).
  exists (reverse ws). split; [by apply Forall_reverse|].
  unfold rstrip. rewrite <- reverse_app, <- Hs. by rewrite reverse_involutive.
Qed.

Lemma str_strip_decomp s :
  exists ws1 ws2, blank ws1 /\ blank ws2 /\ s = ws1 ++ str_strip s ++ ws2.
Proof.
  destruct (lstrip_decomp s) as (ws1 & H1 & Hs).
  destruct (rstrip_decomp (lstrip s)) as (ws2 & H2 & Hl).
  exists ws1, ws2. do 2 (split; [done|]). unfold str_strip. by rewrite <- Hl.
Qed.

(** *** Joining *)

Lemma join_cons_cons sep a b l :
  join sep (a :: b :: l) = a ++ sep ++ join sep (b :: l).
Proof. reflexivity. Qed.

Lemma join_app_prefix sep front back :
  exists rest, join sep (front ++ back) = join sep front ++ rest.
Proof.
  induction front as [|a front IH]; [by eexists|].
  destruct front as [|b front].
  - destruct back as [|b back]; cbn [app]; [by exists []; rewrite app_nil_r|].
    rewrite join_cons_cons. by eexists.
  - destruct IH as [rest IH]. exists rest.
    cbn [app] in *. rewrite !join_cons_cons, IH, <- !app_assoc. done.
Qed.

Lemma no_space_run_app x y :
  (forall i c d, x !! i = Some c -> x !! S i = Some d ->
     ~ (isspace c = true /\ isspace d = true)) ->
  (forall i c d, y !! i = Some c -> y !! S i = Some d ->
     ~ (isspace c = true /\ isspace d = true)) ->
  (forall c d, last x = Some c -> head y = Some d ->
     ~ (isspace c = true /\ isspace d = true)) ->
  forall i c d, (x ++ y) !! i = Some c -> (x ++ y) !! S i = Some d ->
    ~ (isspace c = true /\ isspace d = true).
Proof.
  intros Hx Hy Hxy i c d Hc Hd.
  destruct (decide (S i < length x)%nat) as [Hlt|Hge].
  - rewrite lookup_app_l in Hc, Hd by lia. by eapply Hx.
  - destruct (decide (i < length x)%nat) as [Hlast|Hin_y].
    + rewrite lookup_app_l in Hc by lia. rewrite lookup_app_r in Hd by lia.
      replace (S i - length x)%nat with 0%nat in Hd by lia.
      apply (Hxy c d); [|by destruct y].
      rewrite last_lookup. by replace (Nat.pred (length x)) with i by lia.
    + rewrite lookup_app_r in Hc, Hd by lia.
      replace (S i - length x)%nat with (S (i - length x)) in Hd by lia.
      by eapply Hy.
Qed.

Lemma spaceless_no_space_run w :
  spaceless w ->
  forall i c d, w !! i = Some c -> w !! S i = Some d ->
    ~ (isspace c = true /\ isspace d = true).
Proof.
  intros Hw i c d Hc _ [Hsp _].
  apply list_elem_of_lookup_2 in Hc. unfold spaceless in Hw.
  rewrite Forall_forall in Hw. apply Hw in Hc. congruence.
Qed.

(** Words joined by single spaces are whitespace-collapsed. *)
Lemma join_words_collapsed ws :
  Forall word ws -> whitespace_collapsed (join (py " ") ws).
Proof.
  induction 1 as [|w ws [Hne Hw] Hws IH].
  { split; [|split]; intros; done. }
  assert (Hhead : forall c, head w = Some c -> isspace c = false).
  { intros c Hc. destruct Hw as [|a w Ha _]; [done|]. by injection Hc as <-. }
  assert (Hlast : forall c, last w = Some c -> isspace c = false).
  { intros c Hc. unfold spaceless in Hw. rewrite Forall_forall in Hw.
    apply Hw. rewrite last_lookup in Hc. by eapply list_elem_of_lookup_2. }
  destruct ws as [|w' ws].
  { cbn [join]. split; [done|]. split; [done|]. by apply spaceless_no_space_run. }
  rewrite join_cons_cons. destruct IH as (IHhead & IHlast & IHrun).
  set (rest := join (py " ") (w' :: ws)) in *.
  assert (Hrest : rest <> []).
  { inversion Hws as [|? ? [Hw' _] _]; subst. unfold rest.
    destruct ws; [done|]. rewrite join_cons_cons. by destruct w'. }
  split; [|split].
  - intros c Hc. apply Hhead. by destruct w.
  - intros c Hc. apply IHlast. rewrite !last_app in Hc.
    destruct (last rest) eqn:Hl; [done|]. by apply last_None in Hl.
  - apply no_space_run_app; [by apply spaceless_no_space_run | |].
    + change (py " " ++ rest) with ([32] ++ rest).
      apply no_space_run_app.
      * intros [|i] c d Hc Hd; done.
      * done.
      * intros c d _ Hd [_ Hsp]. apply IHhead in Hd. congruence.
    + intros c d Hc _ [Hsp _]. apply Hlast in Hc. congruence.
Qed.

(** *** Text already in shape *)

Lemma lstrip_fixed s :
  (forall c, head s = Some c -> isspace c = false) -> lstrip s = s.
Proof.
  destruct s as [|c s]; [done|]. intros H. cbn [lstrip]. by rewrite (H c).
Qed.

Lemma rstrip_fixed s :
  (forall c, last s = Some c -> isspace c = false) -> rstrip s = s.
Proof.
  intros H. unfold rstrip. rewrite lstrip_fixed, reverse_involutive; [done|].
  intros c. rewrite head_reverse. apply H.
Qed.

Lemma str_strip_fixed s :
  (forall c, head s = Some c -> isspace c = false) ->
  (forall c, last s = Some c -> isspace c = false) ->
  str_strip s = s.
Proof.
  intros Hhead Hlast. unfold str_strip. rewrite (lstrip_fixed s Hhead).
  by apply rstrip_fixed.
Qed.

Lemma lstrip_head s c : head (lstrip s) = Some c -> isspace c = false.
Proof.
  destruct (lstrip_blank_or_head s) as [-> | (d & r & -> & Hd)]; [done|].
  by intros [= <-].
Qed.

Lemma lstrip_last s c : last (lstrip s) = Some c -> last s = Some c.
Proof.
  destruct (lstrip_decomp s) as (ws & _ & Hs). intros Hc.
  rewrite Hs, last_app, Hc. done.
Qed.

(** What [strip] returns has no whitespace at either end. *)
Lemma str_strip_ends s :
  (forall c, head (str_strip s) = Some c -> isspace c = false)
  /\ (forall c, last (str_strip s) = Some c -> isspace c = false).
Proof.
  unfold str_strip, rstrip. split; intros c.
  - rewrite head_reverse. intros Hc%lstrip_last.
    rewrite last_reverse in Hc. by eapply lstrip_head.
  - rewrite last_reverse. apply lstrip_head.
Qed.

Lemma str_strip_idempotent s : str_strip (str_strip s) = str_strip s.
Proof. destruct (str_strip_ends s). by apply str_strip_fixed. Qed.

Lemma str_split_join_words ws :
  Forall word ws -> str_split (join (py " ") ws) = ws.
Proof.
  induction 1 as [|w ws [Hne Hw] Hws IH]; [done|].
  assert (Hsplit : str_split w = [w]).
  { rewrite str_split_spaceless by done. by destruct w. }
  destruct ws as [|w' ws]; [done|].
  rewrite join_cons_cons.
  change (py " " ++ join (py " ") (w' :: ws)) with (32 :: join (py " ") (w' :: ws)).
  rewrite str_split_app_space by done. by rewrite Hsplit, IH.
Qed.

Lemma whitespace_collapsed_strip s : whitespace_collapsed s -> str_strip s = s.
Proof. intros (Hhead & Hlast & _). by apply str_strip_fixed. Qed.

Lemma join_app_suffix sep front back :
  exists rest, join sep (front ++ back) = rest ++ join sep back.
Proof.
  induction front as [|a front [rest IH]]; [by exists []|].
  destruct (front ++ back) as [|b l] eqn:Hl.
  - apply app_eq_nil in Hl as [-> ->]. exists a. cbn. by rewrite app_nil_r.
  - cbn [app]. rewrite Hl, join_cons_cons, IH. exists (a ++ sep ++ rest).
    by rewrite <- !app_assoc.
Qed.

(** The join of a part of a list occurs in the join of the list. *)
Lemma join_app_infix sep front middle back :
  is_substring (join sep middle) (join sep (front ++ middle ++ back)).
Proof.
  destruct (join_app_suffix sep front (middle ++ back)) as [l ->].
  destruct (join_app_prefix sep middle back) as [r ->].
  by exists l, r.
Qed.

(** ** AI runtime resolver *)

(** C4 (as amended).  Over the mapping the function reads ([env], or the
    process environment when [env] is [None] or empty): [api_key] is
    [OPENAI_API_KEY] when that is present and non-empty, otherwise
    [GEMINI_API_KEY]; [is_gemini_openai_compat] holds exactly when a non-empty
    Gemini key is present and no non-empty OpenAI key is; [base_url] and
    [model_name] are the explicit values when non-empty, else the Gemini
    constants when [is_gemini_openai_compat], else empty.  The function is
    total, and when none of the four variables is set, [base_url] and
    [model_name] are empty, [is_gemini_openai_compat] is false and [api_key]
    is [None]. *)
Theorem resolve_ai_runtime_config_precedence
    (env : option (gmap pystr pystr)) (os_environ : gmap pystr pystr) :
  let source := env_or_environ env os_environ in
  let openai := source !! py "OPENAI_API_KEY" in
  let gemini := source !! py "GEMINI_API_KEY" in
  let explicit_url := source !! py "OPENAI_BASE_URL" in
  let explicit_model := source !! py "OPENAI_MODEL_NAME" in
  let r := resolve_ai_runtime_config env os_environ in
  api_key r = (if truthy openai then openai else gemini)
  /\ (is_gemini_openai_compat r = true <-> truthy gemini = true /\ truthy openai = false)
  /\ base_url r =
       (if truthy explicit_url then default [] explicit_url
        else if is_gemini_openai_compat r then GEMINI_OPENAI_COMPAT_BASE_URL else py "")
  /\ model_name r =
       (if truthy explicit_model then default [] explicit_model
        else if is_gemini_openai_compat r then GEMINI_DEFAULT_MODEL_NAME else py "")
  /\ (openai = None -> gemini = None -> explicit_url = None -> explicit_model = None ->
      api_key r = None /\ base_url r = py "" /\ model_name r = py ""
      /\ is_gemini_openai_compat r = false).
Proof.
  intros source openai gemini explicit_url explicit_model r.
  unfold r, resolve_ai_runtime_config. fold source. fold openai gemini explicit_url explicit_model.
  cbn [api_key base_url model_name is_gemini_openai_compat].
  repeat split.
  - rewrite andb_true_iff, negb_true_iff in H. tauto.
  - rewrite andb_true_iff, negb_true_iff in H. tauto.
  - intros [-> ->]. done.
  - destruct explicit_url as [[|c u]|]; simpl; try done;
      by destruct (truthy gemini && negb (truthy openai)).
  - destruct explicit_model as [[|c u]|]; simpl; try done;
      by destruct (truthy gemini && negb (truthy openai)).
  - rewrite H. done.
  - rewrite H0, H1. done.
  - rewrite H0, H2. done.
  - rewrite H0. done.
Qed.

(** C4, where the statement of the specification fails: with none of the four
    variables set the [api_key] of the result is [None], not the empty string;
    and for an empty [env] the result is read off the process environment. *)
Lemma resolve_ai_runtime_config_unset_api_key :
  let r := resolve_ai_runtime_config
             (Some (env_of [("PROXY_URL", "http://127.0.0.1:7890")]%string)) ∅ in
  let r' := resolve_ai_runtime_config
              (Some ∅) (env_of [("OPENAI_API_KEY", "openai-key")]%string) in
  (api_key r = None /\ api_key r <> Some (py ""))
  /\ api_key r' = Some (py "openai-key").
Proof. vm_compute. repeat split; discriminate. Qed.

(** ** Task entity and DTOs *)

Lemma has_valid_keyword_groups_false groups :
  _has_valid_keyword_groups groups = false <-> no_include_keywords groups.
Proof.
  unfold _has_valid_keyword_groups, no_include_keywords.
  destruct groups as [|g groups]; simpl.
  { split; [intros _ g Hg; by apply elem_of_nil in Hg | done]. }
  change (nonempty (include_keywords g) || existsb (fun group => nonempty (include_keywords group)) groups)
    with (existsb (fun group => nonempty (include_keywords group)) (g :: groups)).
  generalize (g :: groups). clear. intros groups.
  induction groups as [|g groups IH]; simpl.
  - split; [intros _ g Hg; by apply elem_of_nil in Hg | done].
  - rewrite orb_false_iff, IH, nonempty_false. split.
    + intros [Hg Hall] g' [-> | Hin]%elem_of_cons; auto.
    + intros Hall. split; [apply Hall; left | intros g' Hg'; apply Hall; by right].
Qed.

Lemma strip_blank_description (description : option pystr) :
  nonempty (str_strip (default (py "") description)) = false
  <-> match description with None => True | Some d => blank d end.
Proof.
  rewrite nonempty_false, str_strip_nil.
  destruct description; simpl; [done|]. split; [done | intros _; constructor].
Qed.

(** C3 (as amended).  Constructing a [TaskCreate] fails with a validation
    error when the decision mode is AI and the description is blank or absent,
    and when the decision mode is keyword and no rule group has an include
    keyword; the [Task] entity itself declares no such check, and constructing
    a [Task] from validated field values succeeds whatever they are. *)
Theorem TaskCreate_requires_decision_mode_payload (values : TaskCreate.t) :
  (TaskCreate.decision_mode values = AI ->
   match TaskCreate.description values with None => True | Some d => blank d end ->
   TaskCreate.create values
   = Raise (ValidationError (py "AI 判断模式下，详细需求(description)不能为空。")))
  /\ (TaskCreate.decision_mode values = KEYWORD ->
      no_include_keywords (TaskCreate.keyword_rule_groups values) ->
      TaskCreate.create values
      = Raise (ValidationError (py "关键词判断模式下，至少需要一个包含关键词。")))
  /\ (forall task : Task.t, Task.create task = Ok task).
Proof.
  unfold TaskCreate.create, TaskCreate.root_validators, run_root_validators.
  cbn [fold_left bind]. unfold TaskCreate.validate_decision_mode_payload.
  split; [|split].
  - intros Hmode Hblank. apply strip_blank_description in Hblank.
    rewrite Hmode, Hblank. done.
  - intros Hmode Hnone. apply has_valid_keyword_groups_false in Hnone.
    rewrite Hmode, Hnone. done.
  - done.
Qed.

(** C3, where the statement of the specification fails: a [Task] in AI mode
    with an empty description is constructed without error. *)
Lemma Task_create_accepts_ai_without_description :
  Task.decision_mode task_ai_without_description = Some AI
  /\ Task.description task_ai_without_description = Some (py "")
  /\ Task.create task_ai_without_description = Ok task_ai_without_description.
Proof. repeat split. Qed.

Lemma TaskUpdate_create_unfold (u : TaskUpdate.t) :
  TaskUpdate.create u
  = match TaskUpdate.validate_partial_keyword_payload u with
    | Raise (ValueError msg) => Raise (ValidationError msg)
    | r => r
    end.
Proof. reflexivity. Qed.

Lemma keyword_payload_rejected (mode : option decision_mode)
    (groups : option (list KeywordRuleGroup)) :
  bool_decide (mode = Some KEYWORD)
  && match groups with
     | Some groups => negb (_has_valid_keyword_groups groups)
     | None => false
     end = true
  <-> mode = Some KEYWORD /\ exists gs, groups = Some gs /\ no_include_keywords gs.
Proof.
  rewrite andb_true_iff, bool_decide_eq_true. destruct groups as [gs|].
  - rewrite negb_true_iff, has_valid_keyword_groups_false. naive_solver.
  - naive_solver.
Qed.

Lemma ai_payload_rejected (mode : option decision_mode) (description : option pystr) :
  bool_decide (mode = Some AI)
  && match description with
     | Some description => negb (nonempty (str_strip description))
     | None => false
     end = true
  <-> mode = Some AI /\ exists d, description = Some d /\ blank d.
Proof.
  rewrite andb_true_iff, bool_decide_eq_true. destruct description as [d|].
  - rewrite negb_true_iff, nonempty_false, str_strip_nil. naive_solver.
  - naive_solver.
Qed.

(** C6.  [TaskUpdate] validation looks only at the values the update carries:
    it fails exactly when the update carries [decision_mode = keyword] with a
    [keyword_rule_groups] value without any include keyword, or
    [decision_mode = ai] with a blank [description]; an update without
    [keyword_rule_groups] and [description], and an update without
    [decision_mode], pass; and two updates that each pass can take a Task whose
    prerequisite is met to one whose prerequisite is not. *)
Theorem TaskUpdate_validates_supplied_fields_only :
  (forall u : TaskUpdate.t,
     (exists e, TaskUpdate.create u = Raise e)
     <-> (field_value (TaskUpdate.decision_mode u) = Some KEYWORD
          /\ exists groups, field_value (TaskUpdate.keyword_rule_groups u) = Some groups
                            /\ no_include_keywords groups)
         \/ (field_value (TaskUpdate.decision_mode u) = Some AI
             /\ exists d, field_value (TaskUpdate.description u) = Some d /\ blank d))
  /\ (forall u : TaskUpdate.t,
        field_value (TaskUpdate.keyword_rule_groups u) = None ->
        field_value (TaskUpdate.description u) = None ->
        TaskUpdate.create u = Ok u)
  /\ (forall u : TaskUpdate.t,
        field_value (TaskUpdate.decision_mode u) = None ->
        TaskUpdate.create u = Ok u)
  /\ (exists (task : Task.t) (u1 u2 : TaskUpdate.t),
        ~ prerequisite_unsatisfied task
        /\ TaskUpdate.create u1 = Ok u1
        /\ TaskUpdate.create u2 = Ok u2
        /\ prerequisite_unsatisfied (Task.apply_update (Task.apply_update task u1) u2)).
Proof.
  split; [|split; [|split]].
  - intros u. rewrite TaskUpdate_create_unfold.
    unfold TaskUpdate.validate_partial_keyword_payload.
    rewrite <- keyword_payload_rejected, <- ai_payload_rejected.
    destruct (bool_decide _ && _); [naive_solver|].
    destruct (bool_decide _ && _); naive_solver.
  - intros u Hgroups Hdesc. rewrite TaskUpdate_create_unfold.
    unfold TaskUpdate.validate_partial_keyword_payload.
    rewrite Hgroups, Hdesc, !andb_false_r. done.
  - intros u Hmode. rewrite TaskUpdate_create_unfold.
    unfold TaskUpdate.validate_partial_keyword_payload.
    rewrite Hmode. done.
  - exists task_ai_with_description, (update_mode KEYWORD), (update_groups []).
    split; [|split; [done|split; [done|]]].
    + intros [[_ Hblank] | [Hmode _]]; [|discriminate Hmode].
      apply str_strip_nil in Hblank. vm_compute in Hblank. discriminate Hblank.
    + right. split; [done|]. intros g Hg. by apply elem_of_nil in Hg.
Qed.





(** ** Price normalization *)

Section PriceNormalization.

Variable pyfloat : Type.
Variable float_str : pyfloat -> pystr.

(** [str] of a float is never empty and never one of the words the
    normalization maps to [None]. *)
Hypothesis float_str_not_null : forall f,
  float_str f <> py "" /\ float_str f <> py "null" /\ float_str f <> py "undefined".

Lemma str_int_not_null n :
  str_int n <> py "" /\ str_int n <> py "null" /\ str_int n <> py "undefined".
Proof.
  destruct (str_int_head n) as (d & rest & -> & Hd).
  repeat split; intros H; vm_compute in H; try discriminate H;
    injection H as -> _; lia.
Qed.

Lemma str_bool_not_null b :
  str_bool b <> py "" /\ str_bool b <> py "null" /\ str_bool b <> py "undefined".
Proof. destruct b; vm_compute; repeat split; discriminate. Qed.

Lemma convert_price_to_str_text (s : pystr) :
  s <> py "" -> s <> py "null" -> s <> py "undefined" ->
  TaskCreate.convert_price_to_str pyfloat float_str (VStr s) = VStr s.
Proof.
  intros H1 H2 H3. unfold TaskCreate.convert_price_to_str.
  rewrite !bool_decide_eq_false_2 by done. done.
Qed.

Lemma convert_price_to_str_same :
  TaskUpdate.convert_price_to_str pyfloat float_str
  = TaskCreate.convert_price_to_str pyfloat float_str.
Proof. reflexivity. Qed.

(** C9.  On both DTOs the price normalization maps the empty string, "null",
    "undefined" and [None] to [None], an integer (a bool included) or a float
    to its [str], leaves every other string as it is, and applied to its own
    output returns that output. *)
Theorem convert_price_to_str_normalizes :
  normalizes_price float_str (TaskCreate.convert_price_to_str pyfloat float_str)
  /\ normalizes_price float_str (TaskUpdate.convert_price_to_str pyfloat float_str).
Proof.
  rewrite convert_price_to_str_same.
  enough (normalizes_price float_str (TaskCreate.convert_price_to_str pyfloat float_str))
    by done.
  unfold normalizes_price. repeat split; try done.
  - intros s. apply convert_price_to_str_text.
  - intros v. destruct v as [|s|n|f|b|items|items]; try done.
    + cbn [TaskCreate.convert_price_to_str].
      destruct (bool_decide (s = py "") || bool_decide (s = py "null")
                || bool_decide (s = py "undefined")) eqn:Hs;
        cbn [TaskCreate.convert_price_to_str]; [done | by rewrite Hs].
    + destruct (str_int_not_null n) as (H1 & H2 & H3).
      by apply convert_price_to_str_text.
    + destruct (float_str_not_null f) as (H1 & H2 & H3).
      by apply convert_price_to_str_text.
    + destruct (str_bool_not_null b) as (H1 & H2 & H3).
      by apply convert_price_to_str_text.
Qed.

End PriceNormalization.

(** C9 at a concrete float, whose [str] is "19.5". *)
Lemma convert_price_to_str_normalizes_witness :
  normalizes_price sample_float_str
    (TaskCreate.convert_price_to_str unit sample_float_str)
  /\ normalizes_price sample_float_str
       (TaskUpdate.convert_price_to_str unit sample_float_str).
Proof.
  apply (convert_price_to_str_normalizes unit sample_float_str).
  intros f. vm_compute. repeat split; discriminate.
Defined.

(** ** Keyword rule engine *)

(** *** One group *)

Lemma filter_nonempty_false {A} (P : A -> Prop) `{!forall x, Decision (P x)} (l : list A) :
  nonempty (filter P l) = false <-> forall x, x ∈ l -> ~ P x.
Proof.
  rewrite nonempty_false. split.
  - intros Hnil x Hx HP. by eapply filter_nil_not_elem_of.
  - intros Hall. induction l as [|x l IH]; [done|].
    rewrite filter_cons_False by (apply Hall; left).
    apply IH. intros y Hy. apply Hall. by right.
Qed.

(** The body of the loop declares a match exactly for a matching group. *)
Lemma evaluate_group_matched group text :
  (exists v, evaluate_group group text = GroupMatched v) <-> group_matches group text.
Proof.
  unfold evaluate_group, group_matches.
  destruct (nonempty (g_include_keywords group)) eqn:Hinc; cbn [negb].
  2:{ apply nonempty_false in Hinc. split; [intros [v Hv]; discriminate Hv | tauto]. }
  apply nonempty_true in Hinc.
  destruct (nonempty (filter _ (g_include_keywords group))) eqn:Hmiss; cbn [orb].
  { split; [intros [v Hv]; discriminate Hv|]. intros (_ & Hall & _).
    apply nonempty_true in Hmiss. exfalso. apply Hmiss.
    apply nonempty_false, filter_nonempty_false. intros kw Hkw.
    apply Hall, str_contains_spec in Hkw. congruence. }
  destruct (nonempty (filter _ (g_exclude_keywords group))) eqn:Hblock.
  { split; [intros [v Hv]; discriminate Hv|]. intros (_ & _ & Hnone).
    apply nonempty_true in Hblock. exfalso. apply Hblock.
    apply nonempty_false, filter_nonempty_false. intros kw Hkw.
    apply Hnone in Hkw. by rewrite str_contains_spec. }
  split; [intros _ | eauto]. split; [done|].
  rewrite filter_nonempty_false in Hmiss, Hblock. split.
  - intros kw Hkw. apply str_contains_spec.
    specialize (Hmiss kw Hkw). by destruct (str_contains kw text).
  - intros kw Hkw. rewrite <- str_contains_spec. by apply Hblock.
Qed.

Lemma evaluate_group_failed group text :
  (exists why, evaluate_group group text = GroupFailed why) <-> ~ group_matches group text.
Proof.
  rewrite <- evaluate_group_matched.
  destruct (evaluate_group group text); naive_solver.
Qed.

Lemma evaluate_group_verdict group text v :
  evaluate_group group text = GroupMatched v ->
  analysis_source v = py "keyword"
  /\ is_recommended v = true
  /\ matched_groups v = [g_name group]
  /\ matched_keywords v = g_include_keywords group
  /\ blocked_keywords v = [].
Proof.
  unfold evaluate_group.
  destruct (negb _); [discriminate|]. destruct (_ || _); [discriminate|].
  intros [= <-]. done.
Qed.

Section KeywordRuleEngineProperties.

Variable str_lower : pystr -> pystr.
Variable pyfloat : Type.
Variable float_str : pyfloat -> pystr.

Local Abbreviation normalize := (normalize_text str_lower).
Local Abbreviation extract := (_extract_group_fields str_lower).
Local Abbreviation collect := (_collect_text_fragments pyfloat float_str).

Lemma _normalize_keywords_nonempty values kw :
  kw ∈ _normalize_keywords str_lower values -> kw <> [].
Proof.
  unfold _normalize_keywords.
  assert (Hinv : forall st,
            Forall (fun k => k <> []) st.1 ->
            Forall (fun k => k <> [])
              (fold_left (_normalize_keywords_step str_lower) values st).1).
  { induction values as [|raw values IH]; intros st Hst; [done|].
    cbn [fold_left]. apply IH. destruct st as [normalized seen].
    unfold _normalize_keywords_step.
    destruct (nonempty (normalize (Some (str_strip raw)))) eqn:Hne; cbn [negb orb]; [|done].
    destruct (bool_decide _); [done|]. cbn [fst] in *.
    apply Forall_app. split; [done|]. apply Forall_singleton.
    by apply nonempty_true. }
  intros Hin. specialize (Hinv ([], ∅) ltac:(by constructor)).
  rewrite Forall_forall in Hinv. by apply Hinv.
Qed.

Lemma extracted_include_nonempty raw fallback kw :
  kw ∈ g_include_keywords (extract raw fallback) -> kw <> [].
Proof. destruct raw; apply _normalize_keywords_nonempty. Qed.

(** *** The loop over the groups *)

(** The extracted form of the group at position [i] of a list whose head has
    index [index]. *)
Local Abbreviation group_at index i raw :=
  (extract raw (default_group_name (index + N.of_nat i))).

Lemma evaluate_groups_first_match groups : forall index reasons text i raw,
  groups !! i = Some raw ->
  group_matches (group_at index i raw) text ->
  exists j rawj v,
    (j <= i)%nat
    /\ groups !! j = Some rawj
    /\ group_matches (group_at index j rawj) text
    /\ (forall k rk, (k < j)%nat -> groups !! k = Some rk ->
        ~ group_matches (group_at index k rk) text)
    /\ evaluate_group (group_at index j rawj) text = GroupMatched v
    /\ evaluate_groups str_lower index groups text reasons = v.
Proof.
  induction groups as [|head rest IH]; intros index reasons text i raw Hi Hmatch; [done|].
  cbn [evaluate_groups].
  destruct (evaluate_group (extract head (default_group_name index)) text)
    as [why|v] eqn:Hhead.
  - assert (Hfail : ~ group_matches (group_at index 0%nat head) text).
    { apply evaluate_group_failed. rewrite N.add_0_r. eauto. }
    destruct i as [|i]; [injection Hi as ->; done|].
    cbn in Hi.
    destruct (IH (index + 1) (reasons ++ [why]) text i raw Hi)
      as (j & rawj & v & Hle & Hj & Hmj & Hbefore & Hv & Heval).
    { replace (index + 1 + N.of_nat i) with (index + N.of_nat (S i)) by lia. done. }
    exists (S j), rawj, v. split; [lia|]. split; [done|].
    replace (index + N.of_nat (S j)) with (index + 1 + N.of_nat j) by lia.
    split; [done|]. split; [|done].
    intros [|k] rk Hk Hrk.
    + injection Hrk as <-. done.
    + replace (index + N.of_nat (S k)) with (index + 1 + N.of_nat k) by lia.
      apply Hbefore; [lia | done].
  - exists 0%nat, head, v. split; [lia|]. split; [done|].
    rewrite N.add_0_r. split; [apply evaluate_group_matched; eauto|].
    split; [intros k rk Hk; lia | done].
Qed.

Lemma evaluate_groups_all_fail groups : forall index reasons text,
  (forall i raw, groups !! i = Some raw -> ~ group_matches (group_at index i raw) text) ->
  exists whys,
    length whys = length groups
    /\ (forall i raw, groups !! i = Some raw ->
        exists why, whys !! i = Some why
                    /\ evaluate_group (group_at index i raw) text = GroupFailed why)
    /\ evaluate_groups str_lower index groups text reasons
       = negative_verdict
           (if nonempty (reasons ++ whys)
            then join (py "；") (take 3 (reasons ++ whys))
            else py "所有关键词规则组均未命中。").
Proof.
  induction groups as [|head rest IH]; intros index reasons text Hall.
  - exists []. rewrite app_nil_r. done.
  - cbn [evaluate_groups].
    destruct (proj2 (evaluate_group_failed (group_at index 0%nat head) text)) as [why Hwhy].
    { by apply Hall. }
    rewrite N.add_0_r in Hwhy. rewrite Hwhy.
    destruct (IH (index + 1) (reasons ++ [why]) text) as (whys & Hlen & Hwhys & Heval).
    { intros i raw Hi.
      replace (index + 1 + N.of_nat i) with (index + N.of_nat (S i)) by lia.
      by apply Hall. }
    exists (why :: whys). split; [cbn; lia|]. split.
    + intros [|i] raw Hi.
      * injection Hi as <-. exists why. rewrite N.add_0_r. done.
      * replace (index + N.of_nat (S i)) with (index + 1 + N.of_nat i) by lia.
        by apply Hwhys.
    + rewrite Heval, <- app_assoc. done.
Qed.

Lemma evaluate_keyword_rules_loop groups search_text :
  normalize search_text <> [] -> groups <> [] ->
  evaluate_keyword_rules str_lower groups search_text
  = evaluate_groups str_lower 1 groups (normalize search_text) [].
Proof.
  intros Htext Hgroups. unfold evaluate_keyword_rules.
  apply nonempty_true in Htext, Hgroups. rewrite Htext, Hgroups. done.
Qed.

Lemma group_matches_text_nonempty raw fallback text :
  group_matches (extract raw fallback) text -> text <> [].
Proof.
  intros (Hinc & Hall & _) ->.
  pose proof (extracted_include_nonempty raw fallback) as Hne.
  destruct (g_include_keywords (extract raw fallback)) as [|kw kws]; [done|].
  assert (Hkw : kw ∈ kw :: kws) by left.
  destruct (Hall kw Hkw) as (l & r & Hlr).
  apply Hne in Hkw.
  destruct l; [destruct kw; [done | discriminate Hlr] | discriminate Hlr].
Qed.

(** C1.  For a group with include keywords that the loop reaches (no group
    before it matches) and a text whose normal form is not empty: the verdict
    of the evaluation up to and including that group is a recommendation if
    and only if every include keyword of the group is a contiguous substring
    of the normalized text and no exclude keyword is; and when that holds the
    verdict names this group, whatever groups follow. *)
Theorem group_is_and_of_includes_not_of_excludes
    (before : list raw_group) (raw : raw_group) (search_text : option pystr) :
  let text := normalize search_text in
  let group := group_at 1 (length before) raw in
  let includes_present :=
    forall kw, kw ∈ g_include_keywords group -> is_substring kw text in
  let excludes_absent :=
    forall kw, kw ∈ g_exclude_keywords group -> ~ is_substring kw text in
  g_include_keywords group <> [] ->
  text <> [] ->
  (forall i r, before !! i = Some r -> ~ group_matches (group_at 1 i r) text) ->
  (is_recommended (evaluate_keyword_rules str_lower (before ++ [raw]) search_text) = true
   <-> includes_present /\ excludes_absent)
  /\ (forall after,
        includes_present /\ excludes_absent ->
        let v := evaluate_keyword_rules str_lower (before ++ raw :: after) search_text in
        is_recommended v = true /\ matched_groups v = [g_name group]).
Proof.
  intros text group includes_present excludes_absent Hinc Htext Hbefore.
  assert (Hreached : forall after,
            includes_present /\ excludes_absent ->
            exists v,
              evaluate_group group text = GroupMatched v
              /\ evaluate_groups str_lower 1 (before ++ raw :: after) text [] = v).
  { intros after [Hall Hnone].
    destruct (evaluate_groups_first_match (before ++ raw :: after) 1 [] text
                (length before) raw)
      as (j & rawj & v & Hle & Hj & Hmj & _ & Hv & Heval).
    - by rewrite list_lookup_middle.
    - done.
    - destruct (decide (j = length before)) as [-> | Hne].
      + rewrite list_lookup_middle in Hj by done. injection Hj as <-. eauto.
      + rewrite lookup_app_l in Hj by lia. by apply Hbefore in Hj. }
  split.
  - rewrite evaluate_keyword_rules_loop by (done || by destruct before).
    fold text. split.
    + intros Hrec.
      enough (Hm : group_matches group text) by (destruct Hm as (_ & ? & ?); done).
      destruct (evaluate_group group text) as [why|v] eqn:Hg;
        [exfalso | apply evaluate_group_matched; eauto].
      assert (Hfail : ~ group_matches group text) by (apply evaluate_group_failed; eauto).
      destruct (evaluate_groups_all_fail (before ++ [raw]) 1 [] text)
        as (whys & _ & _ & Heval).
      { intros i r Hi. apply lookup_app_Some in Hi as [Hi | [Hlen Hi]]; [by apply Hbefore|].
        destruct (i - length before)%nat as [|n] eqn:Hn; [|done].
        injection Hi as <-. replace i with (length before) by lia. done. }
      rewrite Heval in Hrec. discriminate Hrec.
    + intros Hcond. destruct (Hreached [] Hcond) as (v & Hv & ->).
      by apply evaluate_group_verdict in Hv as (_ & ? & _).
  - intros after Hcond. cbn zeta.
    rewrite evaluate_keyword_rules_loop by (done || by destruct before).
    fold text. destruct (Hreached after Hcond) as (v & Hv & ->).
    by apply evaluate_group_verdict in Hv as (_ & ? & ? & _).
Qed.

(** C2.  When some group of the list matches the text, the verdict is that of
    the first matching group: a recommendation whose matched groups are that
    group's name alone, whose matched keywords are its include keywords, and
    whose blocked keywords are empty. *)
Theorem first_matching_group_wins
    (groups : list raw_group) (search_text : option pystr) (i : nat) (raw : raw_group) :
  let text := normalize search_text in
  groups !! i = Some raw ->
  group_matches (group_at 1 i raw) text ->
  exists (j : nat) (first : raw_group),
    (j <= i)%nat
    /\ groups !! j = Some first
    /\ group_matches (group_at 1 j first) text
    /\ (forall k rk, (k < j)%nat -> groups !! k = Some rk ->
        ~ group_matches (group_at 1 k rk) text)
    /\ let v := evaluate_keyword_rules str_lower groups search_text in
       is_recommended v = true
       /\ matched_groups v = [g_name (group_at 1 j first)]
       /\ matched_keywords v = g_include_keywords (group_at 1 j first)
       /\ blocked_keywords v = [].
Proof.
  intros text Hi Hmatch.
  destruct (evaluate_groups_first_match groups 1 [] text i raw Hi Hmatch)
    as (j & first & v & Hle & Hj & Hmj & Hbefore & Hv & Heval).
  exists j, first. do 4 (split; [done|]).
  rewrite evaluate_keyword_rules_loop.
  - fold text. rewrite Heval.
    by apply evaluate_group_verdict in Hv as (_ & ? & ? & ? & ?).
  - by eapply group_matches_text_nonempty.
  - by destruct groups.
Qed.

Lemma evaluate_groups_analysis_source groups : forall index reasons text,
  analysis_source (evaluate_groups str_lower index groups text reasons) = py "keyword".
Proof.
  induction groups as [|head rest IH]; intros index reasons text; [done|].
  cbn [evaluate_groups].
  destruct (evaluate_group _ text) as [why|v] eqn:Hv; [apply IH|].
  by apply evaluate_group_verdict in Hv as (? & _).
Qed.

(** C5.  The evaluator returns a verdict on every input: the fixed negative
    verdict for a text whose normal form is empty, the fixed negative verdict
    for an empty list of groups, and otherwise the result of the loop, in which
    a group without include keywords is recorded as failed and skipped; when no
    group matches the verdict is negative and its reason joins the first three
    failure reasons of the groups; the analysis source is always "keyword". *)
Theorem evaluate_keyword_rules_degenerate_inputs :
  (forall groups search_text,
     normalize search_text = [] ->
     evaluate_keyword_rules str_lower groups search_text
     = negative_verdict (py "可匹配文本为空，关键词规则无法执行。"))
  /\ (forall search_text,
        normalize search_text <> [] ->
        evaluate_keyword_rules str_lower [] search_text
        = negative_verdict (py "未配置关键词规则分组。"))
  /\ (forall index raw rest text reasons,
        let group := extract raw (default_group_name index) in
        g_include_keywords group = [] ->
        evaluate_groups str_lower index (raw :: rest) text reasons
        = evaluate_groups str_lower (index + 1) rest text
            (reasons ++ [g_name group ++ py ": 缺少包含关键词"]))
  /\ (forall groups search_text,
        let text := normalize search_text in
        text <> [] -> groups <> [] ->
        (forall i raw, groups !! i = Some raw -> ~ group_matches (group_at 1 i raw) text) ->
        exists whys,
          length whys = length groups
          /\ (forall i raw, groups !! i = Some raw ->
              exists why, whys !! i = Some why
                          /\ evaluate_group (group_at 1 i raw) text = GroupFailed why)
          /\ evaluate_keyword_rules str_lower groups search_text
             = negative_verdict (join (py "；") (take 3 whys)))
  /\ (forall groups search_text,
        analysis_source (evaluate_keyword_rules str_lower groups search_text)
        = py "keyword").
Proof.
  split; [|split; [|split; [|split]]].
  - intros groups search_text Htext. unfold evaluate_keyword_rules.
    rewrite Htext. done.
  - intros search_text Htext. unfold evaluate_keyword_rules.
    apply nonempty_true in Htext. rewrite Htext. done.
  - intros index raw rest text reasons group Hinc. cbn [evaluate_groups].
    fold group. unfold evaluate_group. rewrite Hinc. done.
  - intros groups search_text text Htext Hgroups Hall.
    destruct (evaluate_groups_all_fail groups 1 [] text Hall) as (whys & Hlen & Hwhys & Heval).
    exists whys. do 2 (split; [done|]).
    rewrite evaluate_keyword_rules_loop by done. fold text. rewrite Heval.
    rewrite app_nil_l. destruct whys; [by destruct groups | done].
  - intros groups search_text. unfold evaluate_keyword_rules.
    destruct (negb _); [done|]. destruct (negb _); [done|].
    apply evaluate_groups_analysis_source.
Qed.

(** *** Collecting the text of a record *)

(** C10.  [build_search_text] returns a text for every record in which each of
    the keys "商品信息" and "卖家信息" is absent or maps to a dict, whatever is
    nested below; and for a record in which "商品信息" maps to a string it raises
    instead. *)
Theorem build_search_text_total_on_mappings :
  (forall record : pydict pyfloat,
     (forall key, key = py "商品信息" \/ key = py "卖家信息" ->
        dict_get pyfloat record key = None
        \/ exists d, dict_get pyfloat record key = Some (VDict d)) ->
     exists text, build_search_text str_lower pyfloat float_str record = Ok text)
  /\ (exists (record : pydict pyfloat) (s : pystr),
        dict_get pyfloat record (py "商品信息") = Some (VStr s)
        /\ build_search_text str_lower pyfloat float_str record = Raise AttributeError).
Proof.
  split.
  - intros record Hshape. unfold build_search_text.
    destruct (Hshape (py "商品信息")) as [-> | [d ->]]; [by left | |]; cbn; eauto.
  - exists [(py "商品信息", VStr (py "Sony A7M4"))], (py "Sony A7M4").
    split; reflexivity.
Qed.


(** Induction on a value, with the hypothesis for every value nested in a dict
    or a list. *)
Lemma pyvalue_nested_ind (P : pyvalue pyfloat -> Prop) :
  P VNone ->
  (forall s, P (VStr s)) ->
  (forall n, P (VInt n)) ->
  (forall f, P (VFloat f)) ->
  (forall b, P (VBool b)) ->
  (forall items, Forall (fun item => P item.2) items -> P (VDict items)) ->
  (forall items, Forall P items -> P (VList items)) ->
  forall v, P v.
Proof.
  intros HNone HStr HInt HFloat HBool HDict HList.
  fix IH 1.
  intros [|s|n|f|b|items|items];
    [exact HNone | apply HStr | apply HInt | apply HFloat | apply HBool | |].
  - apply HDict. induction items as [|[k v] items IHitems]; constructor.
    + apply IH.
    + exact IHitems.
  - apply HList. induction items as [|v items IHitems]; constructor.
    + apply IH.
    + exact IHitems.
Qed.

(** What a call adds to the bucket does not depend on the bucket. *)
Lemma _collect_text_fragments_app value : forall bucket,
  collect value bucket = bucket ++ collect value [].
Proof.
  induction value as [|s|n|f|b|items IH|items IH] using pyvalue_nested_ind;
    intros bucket; cbn [_collect_text_fragments]; try done.
  - by rewrite app_nil_r.
  - by destruct (nonempty (str_strip s)); rewrite ?app_nil_r.
  - revert bucket. induction IH as [|[k v] items Hv _ IHitems]; intros bucket.
    + by rewrite app_nil_r.
    + cbn [fold_left snd] in *. rewrite IHitems, (IHitems (collect v [])), (Hv bucket).
      by rewrite app_assoc.
  - revert bucket. induction IH as [|v items Hv _ IHitems]; intros bucket.
    + by rewrite app_nil_r.
    + cbn [fold_left]. rewrite IHitems, (IHitems (collect v [])), (Hv bucket).
      by rewrite app_assoc.
Qed.

(** The normal form of a text is whitespace-collapsed, whatever [str.lower]
    does. *)
Lemma normalize_text_collapsed value : whitespace_collapsed (normalize value).
Proof. apply join_words_collapsed, str_split_words. Qed.

(** *** What is assumed of [str.lower] *)

(** Lowering keeps every whitespace character and treats the text on either
    side of it separately; it never turns other characters into whitespace;
    and lowered text is left as it is by lowering. *)
Hypothesis lower_nil : str_lower [] = [].
Hypothesis lower_cut : forall a c b,
  isspace c = true -> str_lower (a ++ c :: b) = str_lower a ++ c :: str_lower b.
Hypothesis lower_spaceless : forall w, spaceless w -> spaceless (str_lower w).
Hypothesis lower_idempotent : forall s, str_lower (str_lower s) = str_lower s.

Lemma lower_cons_space c b : isspace c = true -> str_lower (c :: b) = c :: str_lower b.
Proof.
  intros Hc. pose proof (lower_cut [] c b Hc) as H.
  cbn [app] in H. by rewrite lower_nil in H.
Qed.

Lemma lower_blank_prefix ws x : blank ws -> str_lower (ws ++ x) = ws ++ str_lower x.
Proof.
  induction 1 as [|c ws Hc _ IH]; [done|].
  cbn [app]. by rewrite lower_cons_space, IH.
Qed.

Lemma lower_blank ws : blank ws -> str_lower ws = ws.
Proof.
  intros Hws. pose proof (lower_blank_prefix ws [] Hws) as H.
  by rewrite lower_nil, app_nil_r in H.
Qed.

Lemma lower_blank_suffix x ws : blank ws -> str_lower (x ++ ws) = str_lower x ++ ws.
Proof.
  intros Hws. destruct Hws as [|c ws Hc Hws].
  - by rewrite !app_nil_r.
  - rewrite lower_cut by done. by rewrite (lower_blank ws).
Qed.

Lemma split_lower_strip t :
  str_split (str_lower t) = str_split (str_lower (str_strip t)).
Proof.
  destruct (str_strip_decomp t) as (ws1 & ws2 & H1 & H2 & Ht).
  rewrite Ht at 1.
  rewrite lower_blank_prefix, lower_blank_suffix by done.
  rewrite str_split_blank_prefix, str_split_blank_suffix by done. done.
Qed.

Lemma split_lower_join parts :
  str_split (str_lower (join (py " ") parts))
  = concat (map (fun part => str_split (str_lower part)) parts).
Proof.
  induction parts as [|a parts IH]; [cbn [join map concat]; by rewrite lower_nil|].
  destruct parts as [|b parts].
  - cbn [join map concat]. by rewrite app_nil_r.
  - rewrite join_cons_cons.
    change (py " " ++ join (py " ") (b :: parts)) with (32 :: join (py " ") (b :: parts)).
    rewrite lower_cut, str_split_app_space by done.
    rewrite IH. done.
Qed.

Lemma normalize_text_Some s :
  normalize (Some s) = join (py " ") (str_split (str_lower s)).
Proof. reflexivity. Qed.


Lemma lowered_words n : forall y,
  (length y <= n)%nat -> str_lower y = y ->
  Forall (fun w => str_lower w = w) (str_split y).
Proof.
  induction n as [|n IH]; intros y Hlen Hy.
  { destruct y; [constructor | cbn in Hlen; lia]. }
  destruct (first_space y) as [Hw | (w & c & rest & -> & Hw & Hc)].
  - rewrite str_split_spaceless by done.
    destruct y; cbn [flush]; constructor; [done | constructor].
  - rewrite lower_cut in Hy by done.
    destruct (first_space_unique _ _ _ _ _ _ Hy (lower_spaceless w Hw) Hw Hc Hc)
      as [Hlw Hlrest].
    rewrite str_split_app_space by done. apply Forall_app. split.
    + rewrite str_split_spaceless by done.
      destruct w; cbn [flush]; constructor; [done | constructor].
    + apply IH; [|done]. rewrite length_app in Hlen. cbn in Hlen. lia.
Qed.

Lemma lower_join_words ws :
  Forall (fun w => str_lower w = w) ws ->
  str_lower (join (py " ") ws) = join (py " ") ws.
Proof.
  induction 1 as [|w ws Hw Hws IH]; [done|].
  destruct ws as [|w' ws]; [done|].
  rewrite join_cons_cons.
  change (py " " ++ join (py " ") (w' :: ws)) with (32 :: join (py " ") (w' :: ws)).
  rewrite lower_cut by done. by rewrite Hw, IH.
Qed.

(** The normal form of a text is left as it is by lowering. *)
Lemma normalize_text_lowered value : str_lower (normalize value) = normalize value.
Proof.
  apply lower_join_words, (lowered_words (length (str_lower (default [] value)))); [lia|].
  apply lower_idempotent.
Qed.


(** *** Normalized keyword lists *)

Lemma _normalize_keywords_fold values : forall st,
  (forall x, x ∈ st.2 <-> x ∈ st.1) -> NoDup st.1 ->
  let st' := fold_left (_normalize_keywords_step str_lower) values st in
  (forall x, x ∈ st'.2 <-> x ∈ st'.1)
  /\ NoDup st'.1
  /\ forall kw, kw ∈ st'.1
       <-> kw ∈ st.1
           \/ (kw <> [] /\ exists raw, raw ∈ values /\ kw = normalize (Some (str_strip raw))).
Proof.
  clear lower_nil lower_cut lower_spaceless lower_idempotent.
  induction values as [|raw values IH]; intros st Hseen Hnodup.
  { cbn. do 2 (split; [done|]). intros kw. split; [by left|].
    intros [?|(_ & raw & Hraw & _)]; [done|]. by apply elem_of_nil in Hraw. }
  cbn [fold_left].
  set (text := normalize (Some (str_strip raw))).
  assert (Hstep :
    let st1 := _normalize_keywords_step str_lower st raw in
    (forall x, x ∈ st1.2 <-> x ∈ st1.1)
    /\ NoDup st1.1
    /\ forall kw, kw ∈ st1.1 <-> kw ∈ st.1 \/ (kw <> [] /\ kw = text)).
  { destruct st as [normalized seen]. cbn [fst snd] in Hseen, Hnodup |- *.
    unfold _normalize_keywords_step. fold text.
    destruct (nonempty text) eqn:Hne; cbn [negb orb].
    - destruct (bool_decide (text ∈ seen)) eqn:Hin; cbn [fst snd].
      + apply bool_decide_eq_true in Hin. do 2 (split; [done|]).
        intros kw. split; [by left|]. intros [?|[_ ->]]; [done|]. by apply Hseen.
      + apply bool_decide_eq_false in Hin. split; [|split].
        * intros x. rewrite elem_of_union, elem_of_singleton, elem_of_app,
            list_elem_of_singleton, Hseen. done.
        * apply NoDup_app. split; [done|]. split; [|apply NoDup_singleton].
          intros x Hx ->%list_elem_of_singleton. apply Hin. by apply Hseen.
        * intros kw. rewrite elem_of_app, list_elem_of_singleton.
          apply nonempty_true in Hne. split; [|tauto].
          intros [?| ->]; [by left | by right].
    - apply nonempty_false in Hne. do 2 (split; [done|]).
      intros kw. split; [by left|]. intros [?|[Hkw ->]]; done. }
  destruct Hstep as (Hseen1 & Hnodup1 & Hmem1).
  destruct (IH _ Hseen1 Hnodup1) as (Hseen' & Hnodup' & Hmem').
  do 2 (split; [done|]). intros kw. rewrite Hmem', Hmem1. split.
  - intros [[?|[Hkw ->]]|(Hkw & r & Hr & ->)].
    + by left.
    + right. split; [done|]. exists raw. split; [left | done].
    + right. split; [done|]. exists r. split; [by right | done].
  - intros [?|(Hkw & r & [-> | Hr]%elem_of_cons & ->)].
    + by left; left.
    + left; right. done.
    + right. split; [done|]. eauto.
Qed.

Lemma _normalize_keywords_NoDup values : NoDup (_normalize_keywords str_lower values).
Proof.
  clear lower_nil lower_cut lower_spaceless lower_idempotent.
  destruct (_normalize_keywords_fold values ([], ∅)) as (_ & H & _);
    [set_solver | constructor | done].
Qed.

Lemma _normalize_keywords_elem values kw :
  kw ∈ _normalize_keywords str_lower values
  <-> kw <> [] /\ exists raw, raw ∈ values /\ kw = normalize (Some (str_strip raw)).
Proof.
  clear lower_nil lower_cut lower_spaceless lower_idempotent.
  destruct (_normalize_keywords_fold values ([], ∅)) as (_ & _ & H);
    [set_solver | constructor |].
  unfold _normalize_keywords. rewrite H. cbn [fst]. split; [|by right].
  intros [Hnil|?]; [by apply elem_of_nil in Hnil | done].
Qed.

(** X1.  [_normalize_keywords] returns a list without repetitions whose members
    are exactly the non-empty normal forms of the stripped input keywords. *)
Theorem _normalize_keywords_distinct_normal_forms (values : list pystr) :
  NoDup (_normalize_keywords str_lower values)
  /\ forall kw,
       kw ∈ _normalize_keywords str_lower values
       <-> kw <> []
           /\ exists raw, raw ∈ values /\ kw = normalize (Some (str_strip raw)).
Proof.
  split; [apply _normalize_keywords_NoDup | apply _normalize_keywords_elem].
Qed.

(** *** Normal forms are stable *)

Lemma normalize_text_idempotent value :
  normalize (Some (normalize value)) = normalize value.
Proof.
  rewrite normalize_text_Some, normalize_text_lowered.
  unfold normalize_text at 1.
  rewrite str_split_join_words; [done | apply str_split_words].
Qed.

Lemma normalize_text_strip value :
  normalize (Some (str_strip (normalize value))) = normalize value.
Proof.
  rewrite whitespace_collapsed_strip by apply normalize_text_collapsed.
  apply normalize_text_idempotent.
Qed.

Lemma _normalize_keywords_fixed l : forall acc seen,
  (forall x, x ∈ seen <-> x ∈ acc) ->
  NoDup l ->
  (forall k, k ∈ l -> (k ∉ acc) /\ k <> [] /\ normalize (Some (str_strip k)) = k) ->
  (fold_left (_normalize_keywords_step str_lower) l (acc, seen)).1 = acc ++ l.
Proof.
  induction l as [|k l IH]; intros acc seen Hseen Hnodup Hl.
  { by rewrite app_nil_r. }
  destruct (Hl k) as (Hacc & Hne & Hfix); [left|].
  apply NoDup_cons in Hnodup as [Hk Hnodup].
  cbn [fold_left]. unfold _normalize_keywords_step at 2. rewrite Hfix.
  apply nonempty_true in Hne. rewrite Hne. cbn [negb orb].
  rewrite bool_decide_eq_false_2 by (by rewrite Hseen).
  rewrite IH; [by rewrite <- app_assoc | | done |].
  - intros x. rewrite elem_of_union, elem_of_singleton, elem_of_app,
      list_elem_of_singleton, Hseen. done.
  - intros k' Hk'. destruct (Hl k') as (Hacc' & Hne' & Hfix'); [by right|].
    split; [|done]. rewrite elem_of_app, list_elem_of_singleton.
    intros [?| ->]; done.
Qed.

(** X2.  Normalizing an already normalized keyword list returns it
    unchanged. *)
Theorem _normalize_keywords_idempotent (values : list pystr) :
  _normalize_keywords str_lower (_normalize_keywords str_lower values)
  = _normalize_keywords str_lower values.
Proof.
  unfold _normalize_keywords at 1.
  rewrite _normalize_keywords_fixed; [done | set_solver | apply _normalize_keywords_NoDup |].
  intros k Hk. split; [apply not_elem_of_nil|].
  apply _normalize_keywords_elem in Hk as (Hne & raw & _ & ->).
  split; [done | apply normalize_text_strip].
Qed.

(** X3.  The normal form of a text is its own normal form; so the evaluator
    returns the same verdict on a text and on its normal form, and the text
    [build_search_text] returns is read by the evaluator as it is. *)
Theorem evaluate_keyword_rules_on_normal_form :
  (forall value, normalize (Some (normalize value)) = normalize value)
  /\ (forall groups search_text,
        evaluate_keyword_rules str_lower groups (Some (normalize search_text))
        = evaluate_keyword_rules str_lower groups search_text)
  /\ (forall record text,
        build_search_text str_lower pyfloat float_str record = Ok text ->
        normalize (Some text) = text).
Proof.
  split; [apply normalize_text_idempotent | split].
  - intros groups search_text. unfold evaluate_keyword_rules.
    by rewrite normalize_text_idempotent.
  - intros record text. unfold build_search_text.
    destruct (value_get _ _ _) as [title|e]; cbn [bind]; [|discriminate].
    intros [= <-]. apply normalize_text_idempotent.
Qed.

(** *** The verdict as a function of the groups *)

Lemma evaluate_groups_cases groups : forall index reasons text,
  (exists why, evaluate_groups str_lower index groups text reasons = negative_verdict why)
  \/ (exists i raw v,
        groups !! i = Some raw
        /\ evaluate_group (group_at index i raw) text = GroupMatched v
        /\ evaluate_groups str_lower index groups text reasons = v).
Proof.
  induction groups as [|head rest IH]; intros index reasons text; [left; by eexists|].
  cbn [evaluate_groups].
  destruct (evaluate_group (extract head (default_group_name index)) text)
    as [why|v] eqn:Hhead.
  - destruct (IH (index + 1) (reasons ++ [why]) text)
      as [?|(i & raw & v & Hi & Hv & Heval)]; [by left|].
    right. exists (S i), raw, v. split; [done|].
    replace (index + N.of_nat (S i)) with (index + 1 + N.of_nat i) by lia. done.
  - right. exists 0%nat, head, v. rewrite N.add_0_r. done.
Qed.

Lemma evaluate_keyword_rules_cases groups search_text :
  (exists why, evaluate_keyword_rules str_lower groups search_text = negative_verdict why)
  \/ (exists i raw v,
        groups !! i = Some raw
        /\ evaluate_group (group_at 1 i raw) (normalize search_text) = GroupMatched v
        /\ evaluate_keyword_rules str_lower groups search_text = v).
Proof.
  unfold evaluate_keyword_rules.
  destruct (negb (nonempty (normalize search_text))); [left; by eexists|].
  destruct (negb (nonempty groups)); [left; by eexists|].
  apply evaluate_groups_cases.
Qed.

(** The verdict recommends exactly when some group matches. *)
Lemma evaluate_keyword_rules_recommends groups search_text :
  is_recommended (evaluate_keyword_rules str_lower groups search_text) = true
  <-> exists i raw,
        groups !! i = Some raw
        /\ group_matches (group_at 1 i raw) (normalize search_text).
Proof.
  split.
  - intros Hrec.
    destruct (evaluate_keyword_rules_cases groups search_text)
      as [[why Hv]|(i & raw & v & Hi & Hv & _)].
    + rewrite Hv in Hrec. discriminate Hrec.
    + exists i, raw. split; [done|]. apply evaluate_group_matched. eauto.
  - intros (i & raw & Hi & Hmatch).
    destruct (evaluate_groups_first_match groups 1 [] _ i raw Hi Hmatch)
      as (j & first & v & _ & _ & _ & _ & Hv & Heval).
    rewrite evaluate_keyword_rules_loop.
    + rewrite Heval. by apply evaluate_group_verdict in Hv as (_ & ? & _).
    + by eapply group_matches_text_nonempty.
    + by destruct groups.
Qed.

(** Whether a group matches does not depend on its position. *)
Lemma group_matches_any_position raw fallback fallback' text :
  group_matches (extract raw fallback) text -> group_matches (extract raw fallback') text.
Proof. by destruct raw. Qed.

Lemma evaluate_keyword_rules_recommends_member groups search_text :
  is_recommended (evaluate_keyword_rules str_lower groups search_text) = true
  <-> exists raw, raw ∈ groups /\ group_matches (extract raw []) (normalize search_text).
Proof.
  rewrite evaluate_keyword_rules_recommends. split.
  - intros (i & raw & Hi & Hmatch). exists raw. split.
    + by eapply list_elem_of_lookup_2.
    + by eapply group_matches_any_position.
  - intros (raw & [i Hi]%list_elem_of_lookup_1 & Hmatch). exists i, raw. split; [done|].
    by eapply group_matches_any_position.
Qed.

(** X4.  Reordering the groups never changes whether the listing is
    recommended (only which group the verdict names). *)
Theorem evaluate_keyword_rules_order_independent
    (groups groups' : list raw_group) (search_text : option pystr) :
  groups ≡ₚ groups' ->
  is_recommended (evaluate_keyword_rules str_lower groups search_text)
  = is_recommended (evaluate_keyword_rules str_lower groups' search_text).
Proof.
  intros Hperm.
  assert (Hiff :
    is_recommended (evaluate_keyword_rules str_lower groups search_text) = true
    <-> is_recommended (evaluate_keyword_rules str_lower groups' search_text) = true).
  { rewrite !evaluate_keyword_rules_recommends_member.
    split; intros (raw & Hraw & Hmatch); exists raw; split; try done.
    - by rewrite <- Hperm.
    - by rewrite Hperm. }
  destruct (is_recommended (evaluate_keyword_rules str_lower groups search_text)),
    (is_recommended (evaluate_keyword_rules str_lower groups' search_text)); naive_solver.
Qed.

(** X5.  On every input the verdict has no blocked keywords; a negative
    verdict has no matched group and no matched keyword; a positive verdict
    names one group, and its matched keywords are distinct, non-empty
    and all contained in the normalized text. *)
Theorem evaluate_keyword_rules_verdict_invariants
    (groups : list raw_group) (search_text : option pystr) :
  let v := evaluate_keyword_rules str_lower groups search_text in
  blocked_keywords v = []
  /\ (is_recommended v = false -> matched_groups v = [] /\ matched_keywords v = [])
  /\ (is_recommended v = true ->
      length (matched_groups v) = 1%nat
      /\ matched_keywords v <> []
      /\ NoDup (matched_keywords v)
      /\ forall kw, kw ∈ matched_keywords v ->
           kw <> [] /\ is_substring kw (normalize search_text)).
Proof.
  intros v. unfold v.
  destruct (evaluate_keyword_rules_cases groups search_text)
    as [[why ->]|(i & raw & v' & Hi & Hv & ->)].
  - split; [done|]. split; [done | discriminate].
  - assert (Hm : group_matches (group_at 1 i raw) (normalize search_text))
      by (apply evaluate_group_matched; eauto).
    destruct Hm as (Hne & Hall & _).
    apply evaluate_group_verdict in Hv as (_ & Hrec & Hnames & Hkws & Hblocked).
    split; [done|]. split; [rewrite Hrec; discriminate|]. intros _.
    rewrite Hnames, Hkws. split; [done|]. split; [done|]. split.
    + destruct raw; apply _normalize_keywords_NoDup.
    + intros kw Hkw. split; [by eapply extracted_include_nonempty | by apply Hall].
Qed.

(** X6.  When no group carries an include keyword (what
    [_has_valid_keyword_groups] tests), the evaluator recommends nothing,
    whatever the text. *)
Theorem evaluate_keyword_rules_without_include_keywords
    (groups : list KeywordRuleGroup) (search_text : option pystr) :
  _has_valid_keyword_groups groups = false ->
  is_recommended
    (evaluate_keyword_rules str_lower (GroupObject <$> groups) search_text) = false.
Proof.
  intros Hvalid%has_valid_keyword_groups_false.
  destruct (is_recommended _) eqn:Hrec; [exfalso | done].
  apply evaluate_keyword_rules_recommends_member in Hrec as (raw & Hraw & Hne & _).
  apply list_elem_of_fmap in Hraw as (o & -> & Ho).
  apply Hne. cbn. by rewrite (Hvalid o Ho).
Qed.

(** *** Every leaf of the record is in the text *)

Lemma _collect_text_fragments_fold_dict (items : list (pystr * pyvalue pyfloat)) x :
  forall bucket,
    x ∈ bucket \/ (exists item, item ∈ items /\ x ∈ collect item.2 []) ->
    x ∈ fold_left (fun b item => collect item.2 b) items bucket.
Proof.
  induction items as [|item items IH]; intros bucket.
  - intros [?|(item & Hitem & _)]; [done|]. by apply elem_of_nil in Hitem.
  - intros H. cbn [fold_left]. apply IH. rewrite _collect_text_fragments_app, elem_of_app.
    destruct H as [?|(item' & [-> | Hin]%elem_of_cons & Hx)]; eauto.
Qed.

Lemma _collect_text_fragments_fold_list (items : list (pyvalue pyfloat)) x :
  forall bucket,
    x ∈ bucket \/ (exists item, item ∈ items /\ x ∈ collect item []) ->
    x ∈ fold_left (fun b item => collect item b) items bucket.
Proof.
  induction items as [|item items IH]; intros bucket.
  - intros [?|(item & Hitem & _)]; [done|]. by apply elem_of_nil in Hitem.
  - intros H. cbn [fold_left]. apply IH. rewrite _collect_text_fragments_app, elem_of_app.
    destruct H as [?|(item' & [-> | Hin]%elem_of_cons & Hx)]; eauto.
Qed.

(** What a leaf contributes is among the fragments of every value above it. *)
Lemma _collect_text_fragments_reaches value leaf x :
  reaches value leaf -> x ∈ collect leaf [] -> x ∈ collect value [].
Proof.
  induction 1 as [value|items key value leaf Hin _ IH|items value leaf Hin _ IH];
    intros Hx; [done| |]; cbn [_collect_text_fragments].
  - apply _collect_text_fragments_fold_dict. right. exists (key, value). auto.
  - apply _collect_text_fragments_fold_list. right. exists value. auto.
Qed.

Lemma normalize_text_stripped s : normalize (Some (str_strip s)) = normalize (Some s).
Proof. rewrite !normalize_text_Some. by rewrite <- split_lower_strip. Qed.

(** The normal form of a part occurs in the normal form of the join. *)
Lemma normalize_text_part part parts :
  part ∈ parts ->
  is_substring (normalize (Some part)) (normalize (Some (join (py " ") parts))).
Proof.
  intros (front & back & ->)%list_elem_of_split.
  rewrite !normalize_text_Some, split_lower_join, map_app, concat_app.
  cbn [map concat]. apply join_app_infix.
Qed.

Lemma normalize_text_fragment value x parts :
  x ∈ collect value [] -> collect value [] ⊆ parts ->
  is_substring (normalize (Some x)) (normalize (Some (join (py " ") parts))).
Proof. intros Hx Hsub. apply normalize_text_part. by apply Hsub. Qed.

(** X7.  Every string and every integer at or below the product info or the
    seller info of a record occurs, in normal form, in the text that
    [build_search_text] returns for the record. *)
Theorem build_search_text_contains_every_leaf
    (record : pydict pyfloat) (text : pystr) (key : pystr) (info : pyvalue pyfloat) :
  build_search_text str_lower pyfloat float_str record = Ok text ->
  key = py "商品信息" \/ key = py "卖家信息" ->
  dict_get pyfloat record key = Some info ->
  (forall s, reaches info (VStr s) -> is_substring (normalize (Some s)) text)
  /\ (forall n, reaches info (VInt n) -> is_substring (normalize (Some (str_int n))) text).
Proof.
  intros Hbuild Hkey Hinfo. unfold build_search_text in Hbuild.
  destruct (value_get _ _ _) as [title|e]; cbn [bind] in Hbuild; [|discriminate].
  injection Hbuild as <-.
  set (product_info := default (VDict []) (dict_get pyfloat record (py "商品信息"))) in *.
  set (seller_info := default (VDict []) (dict_get pyfloat record (py "卖家信息"))) in *.
  assert (Hfragments : forall x,
            x ∈ collect info [] ->
            x ∈ collect seller_info (collect product_info (collect title []))).
  { intros x Hx.
    rewrite (_collect_text_fragments_app seller_info).
    rewrite (_collect_text_fragments_app product_info).
    rewrite !elem_of_app.
    destruct Hkey as [-> | ->].
    - left; right. unfold product_info. by rewrite Hinfo.
    - right. unfold seller_info. by rewrite Hinfo. }
  split.
  - intros s Hs. rewrite <- normalize_text_stripped.
    destruct (str_strip s) as [|c t] eqn:Hstrip.
    + replace (normalize (Some [])) with ([] : list N)
        by (rewrite normalize_text_Some, lower_nil; done).
      eexists [], _. reflexivity.
    + apply normalize_text_part, Hfragments.
      apply (_collect_text_fragments_reaches _ _ _ Hs).
      cbn [_collect_text_fragments]. rewrite Hstrip. cbn. left.
  - intros n Hn. apply normalize_text_part, Hfragments.
    apply (_collect_text_fragments_reaches _ _ _ Hn). cbn. left.
Qed.

(** *** Keywords that survive normalization *)

(** Lowering never erases a text. *)
Hypothesis lower_nonempty : forall w, str_lower w = [] -> w = [].

Lemma normalize_text_nonblank s : ~ blank s -> normalize (Some s) <> [].
Proof.
  intros Hs. rewrite normalize_text_Some.
  destruct (lstrip_decomp s) as (ws & Hws & Hdecomp).
  destruct (lstrip_blank_or_head s) as [Hnil | (c & r & Hl & Hc)].
  { by apply lstrip_nil in Hnil. }
  rewrite Hdecomp, Hl, lower_blank_prefix, str_split_blank_prefix by done.
  assert (Hfirst : exists w rest, str_split (str_lower (c :: r)) = w :: rest /\ w <> []).
  { destruct (first_space (c :: r)) as [Hw | (w & d & rest & Heq & Hw & Hd)].
    - exists (str_lower (c :: r)), [].
      assert (Hne : str_lower (c :: r) <> []) by (intros H%lower_nonempty; done).
      split; [|done]. rewrite str_split_spaceless by by apply lower_spaceless.
      by destruct (str_lower (c :: r)).
    - rewrite Heq, lower_cut, str_split_app_space by done.
      assert (Hne : w <> []).
      { intros ->. cbn in Heq. injection Heq as -> _. congruence. }
      assert (Hlne : str_lower w <> []) by (intros H%lower_nonempty; done).
      exists (str_lower w), (str_split (str_lower rest)). split; [|done].
      rewrite str_split_spaceless by by apply lower_spaceless.
      by destruct (str_lower w). }
  destruct Hfirst as (w & rest & -> & Hw).
  destruct rest as [|w' rest]; [done|]. rewrite join_cons_cons. by destruct w.
Qed.

(** X8.  A group that carries an include keyword that is not blank still has
    include keywords after the engine's normalization, so the evaluator does
    not set it aside as lacking include keywords. *)
Theorem _extract_group_fields_keeps_nonblank_keyword
    (o : KeywordRuleGroup) (fallback_name text : pystr) (kw : pystr) :
  kw ∈ include_keywords o ->
  ~ blank kw ->
  g_include_keywords (extract (GroupObject o) fallback_name) <> []
  /\ evaluate_group (extract (GroupObject o) fallback_name) text
     <> GroupFailed (g_name (extract (GroupObject o) fallback_name)
                     ++ py ": 缺少包含关键词").
Proof.
  intros Hkw Hblank.
  assert (Hne : g_include_keywords (extract (GroupObject o) fallback_name) <> []).
  { cbn. intros Hnil.
    assert (Hin : normalize (Some (str_strip kw))
                  ∈ _normalize_keywords str_lower (include_keywords o)).
    { apply _normalize_keywords_elem. split; [|eauto].
      apply normalize_text_nonblank. intros Hb%str_strip_nil.
      rewrite str_strip_idempotent in Hb. by apply str_strip_nil in Hb. }
    rewrite Hnil in Hin. by apply elem_of_nil in Hin. }
  split; [done|]. unfold evaluate_group.
  apply nonempty_true in Hne. rewrite Hne. cbn [negb].
  destruct (_ || _); [|discriminate].
  intros [= Heq]. apply app_inv_head in Heq.
  destruct (nonempty (filter _ _)), (nonempty (filter _ _)); vm_compute in Heq;
    discriminate Heq.
Qed.

End KeywordRuleEngineProperties.

(** ** The model on concrete inputs *)

(** [ascii_lower] has the properties assumed of [str.lower]. *)

Lemma ascii_lower_char_space c : isspace c = true -> ascii_lower_char c = c.
Proof.
  unfold isspace, ascii_lower_char. intros Hc.
  destruct (65 <=? c) eqn:H1; [|done]. destruct (c <=? 90) eqn:H2; [|done].
  apply N.leb_le in H1, H2. exfalso.
  repeat (rewrite ?orb_true_iff, ?andb_true_iff, ?N.leb_le, ?N.eqb_eq in Hc).
  lia.
Qed.

Lemma ascii_lower_char_not_space c :
  isspace c = false -> isspace (ascii_lower_char c) = false.
Proof.
  unfold ascii_lower_char. intros Hc.
  destruct (65 <=? c) eqn:H1; [|done]. destruct (c <=? 90) eqn:H2; [|done].
  apply N.leb_le in H1, H2. cbn [andb].
  destruct (isspace (c + 32)) eqn:Hs; [exfalso | done]. unfold isspace in Hs.
  repeat (rewrite ?orb_true_iff, ?andb_true_iff, ?N.leb_le, ?N.eqb_eq in Hs).
  lia.
Qed.

Lemma ascii_lower_char_idempotent c :
  ascii_lower_char (ascii_lower_char c) = ascii_lower_char c.
Proof.
  unfold ascii_lower_char.
  destruct (65 <=? c) eqn:H1; cbn [andb]; [|by rewrite H1].
  destruct (c <=? 90) eqn:H2; [|by rewrite H1, H2].
  apply N.leb_le in H1, H2.
  destruct (c + 32 <=? 90) eqn:H3; [apply N.leb_le in H3; lia|].
  by rewrite andb_false_r.
Qed.

Lemma ascii_lower_nil : ascii_lower [] = [].
Proof. reflexivity. Qed.

Lemma ascii_lower_cut a c b :
  isspace c = true -> ascii_lower (a ++ c :: b) = ascii_lower a ++ c :: ascii_lower b.
Proof.
  intros Hc. unfold ascii_lower. rewrite map_app. cbn [map].
  by rewrite ascii_lower_char_space.
Qed.

Lemma ascii_lower_spaceless w : spaceless w -> spaceless (ascii_lower w).
Proof.
  unfold spaceless, ascii_lower. intros Hw. apply Forall_map.
  eapply Forall_impl; [exact Hw|]. apply ascii_lower_char_not_space.
Qed.

Lemma ascii_lower_idempotent s : ascii_lower (ascii_lower s) = ascii_lower s.
Proof.
  unfold ascii_lower. rewrite map_map. apply map_ext. apply ascii_lower_char_idempotent.
Qed.

(** The text operations on inputs whose results Python gives. *)

Example py_reads_code_points : py "组1 aZ" = [32452; 49; 32; 97; 90].
Proof. reflexivity. Qed.

Example str_split_runs_of_whitespace :
  str_split (py "  Sony  A7M4	全画幅　相机 ")
  = [py "Sony"; py "A7M4"; py "全画幅"; py "相机"].
Proof. vm_compute. reflexivity. Qed.

Example str_strip_both_ends : str_strip (py " 	a b  ") = py "a b".
Proof. vm_compute. reflexivity. Qed.

Example str_int_decimal :
  str_int (-120) = py "-120" /\ str_int 0 = py "0"
  /\ str_int 1234567890123 = py "1234567890123".
Proof. vm_compute. done. Qed.

Example str_contains_runs :
  str_contains (py "a7") (py "xa7m") = true
  /\ str_contains (py "am") (py "xa7m") = false
  /\ str_contains (py "") (py "") = true.
Proof. vm_compute. done. Qed.

Example join_with_separator :
  join (py ", ") [py "a"; py "b"; py "c"] = py "a, b, c".
Proof. vm_compute. reflexivity. Qed.

(** The unit tests of the repository. *)

Example test_build_search_text_contains_product_and_seller_fields :
  exists text,
    build_search_text ascii_lower unit sample_float_str sample_record = Ok text
    /\ str_contains (py "sony a7m4") text = true
    /\ str_contains (py "摄影器材店") text = true
    /\ str_contains (py "支持同城面交") text = true.
Proof. eexists. split; [reflexivity|]. vm_compute. done. Qed.

Example sample_text_is_search_text :
  build_search_text ascii_lower unit sample_float_str sample_record = Ok sample_text.
Proof. vm_compute. reflexivity. Qed.

Example test_keyword_rules_group_and_or_match :
  let result :=
    evaluate_keyword_rules ascii_lower [group_canon; group_verified] (Some sample_text) in
  is_recommended result = true
  /\ analysis_source result = py "keyword"
  /\ matched_groups result = [py "组2"].
Proof. vm_compute. done. Qed.

Example test_keyword_rules_not_keyword_blocks_group :
  let result := evaluate_keyword_rules ascii_lower [group_no_meeting] (Some sample_text) in
  is_recommended result = false
  /\ str_contains (py "排除词") (reason result) = true.
Proof. vm_compute. done. Qed.

Example test_keyword_rules_case_insensitive_contains :
  is_recommended
    (evaluate_keyword_rules ascii_lower [group_upper] (Some sample_text)) = true.
Proof. vm_compute. done. Qed.

Example test_resolve_ai_runtime_prefers_openai_key_when_present :
  resolve_ai_runtime_config
    (Some (env_of [("OPENAI_API_KEY", "openai-key"); ("GEMINI_API_KEY", "gemini-key");
                   ("OPENAI_BASE_URL", "https://example.com/v1/");
                   ("OPENAI_MODEL_NAME", "custom-model")]%string)) ∅
  = {| api_key := Some (py "openai-key");
       base_url := py "https://example.com/v1/";
       model_name := py "custom-model";
       is_gemini_openai_compat := false |}.
Proof. vm_compute. reflexivity. Qed.

Example test_resolve_ai_runtime_uses_gemini_defaults_with_only_gemini_key :
  resolve_ai_runtime_config
    (Some (env_of [("GEMINI_API_KEY", "gemini-key"); ("OPENAI_BASE_URL", "");
                   ("OPENAI_MODEL_NAME", "")]%string)) ∅
  = {| api_key := Some (py "gemini-key");
       base_url := GEMINI_OPENAI_COMPAT_BASE_URL;
       model_name := GEMINI_DEFAULT_MODEL_NAME;
       is_gemini_openai_compat := true |}.
Proof. vm_compute. reflexivity. Qed.

Example test_resolve_ai_runtime_keeps_custom_base_and_model_for_gemini_key :
  resolve_ai_runtime_config
    (Some (env_of [("GEMINI_API_KEY", "gemini-key");
                   ("OPENAI_BASE_URL", "https://gateway.example/v1/");
                   ("OPENAI_MODEL_NAME", "gemini-2.5-flash")]%string)) ∅
  = {| api_key := Some (py "gemini-key");
       base_url := py "https://gateway.example/v1/";
       model_name := py "gemini-2.5-flash";
       is_gemini_openai_compat := true |}.
Proof. vm_compute. reflexivity. Qed.

(** With both keys and the Gemini endpoint as explicit base URL, the resolver
    keeps the OpenAI key and does not flag Gemini compatibility. *)
Example resolve_ai_runtime_both_keys_gemini_endpoint :
  let r := resolve_ai_runtime_config
             (Some (env_of [("OPENAI_API_KEY", "openai-key"); ("GEMINI_API_KEY", "gemini-key");
                            ("OPENAI_BASE_URL",
                             "https://generativelanguage.googleapis.com/v1beta/openai/");
                            ("OPENAI_MODEL_NAME", "gemini-2.5-flash")]%string)) ∅ in
  api_key r = Some (py "openai-key") /\ is_gemini_openai_compat r = false.
Proof. vm_compute. done. Qed.

(** Degenerate inputs of the evaluator. *)
Example evaluate_keyword_rules_blank_text :
  evaluate_keyword_rules ascii_lower [group_verified] (Some (py "  	 "))
  = negative_verdict (py "可匹配文本为空，关键词规则无法执行。")
  /\ evaluate_keyword_rules ascii_lower [group_verified] None
     = negative_verdict (py "可匹配文本为空，关键词规则无法执行。").
Proof. vm_compute. done. Qed.

Example evaluate_keyword_rules_four_failures :
  reason
    (evaluate_keyword_rules ascii_lower
       [group_canon; dict_group "" [] []; group_no_meeting; group_canon]
       (Some sample_text))
  = py "组1: 缺少 佳能；规则组2: 缺少包含关键词；组1: 命中排除词 面交".
Proof. vm_compute. reflexivity. Qed.

(** C1 on the groups of the unit test: the second group is reached and
    matches. *)
Lemma group_is_and_of_includes_not_of_excludes_witness :
  let text := normalize_text ascii_lower (Some sample_text) in
  let group :=
    _extract_group_fields ascii_lower group_verified
      (default_group_name (1 + N.of_nat (length [group_canon]))) in
  let includes_present :=
    forall kw, kw ∈ g_include_keywords group -> is_substring kw text in
  let excludes_absent :=
    forall kw, kw ∈ g_exclude_keywords group -> ~ is_substring kw text in
  (is_recommended
     (evaluate_keyword_rules ascii_lower ([group_canon] ++ [group_verified])
        (Some sample_text)) = true
   <-> includes_present /\ excludes_absent)
  /\ (forall after,
        includes_present /\ excludes_absent ->
        let v := evaluate_keyword_rules ascii_lower
                   ([group_canon] ++ group_verified :: after) (Some sample_text) in
        is_recommended v = true /\ matched_groups v = [g_name group]).
Proof.
  apply (group_is_and_of_includes_not_of_excludes ascii_lower
           [group_canon] group_verified (Some sample_text)).
  - vm_compute. discriminate.
  - vm_compute. discriminate.
  - intros [|i] r Hr; [|done]. injection Hr as <-. intros (_ & Hall & _).
    assert (Hin : py "佳能" ∈
              g_include_keywords
                (_extract_group_fields ascii_lower group_canon
                   (default_group_name (1 + N.of_nat 0))))
      by (vm_compute; right; left).
    apply Hall, str_contains_spec in Hin. vm_compute in Hin. discriminate Hin.
Defined.

(** C2 on two groups that both match: the first one is reported. *)
Lemma first_matching_group_wins_witness :
  exists (j : nat) (first : raw_group),
    (j <= 1)%nat
    /\ [group_verified; group_upper] !! j = Some first
    /\ group_matches
         (_extract_group_fields ascii_lower first (default_group_name (1 + N.of_nat j)))
         (normalize_text ascii_lower (Some sample_text))
    /\ (forall k rk, (k < j)%nat -> [group_verified; group_upper] !! k = Some rk ->
        ~ group_matches
            (_extract_group_fields ascii_lower rk (default_group_name (1 + N.of_nat k)))
            (normalize_text ascii_lower (Some sample_text)))
    /\ let v := evaluate_keyword_rules ascii_lower [group_verified; group_upper]
                  (Some sample_text) in
       is_recommended v = true
       /\ matched_groups v =
          [g_name (_extract_group_fields ascii_lower first
                     (default_group_name (1 + N.of_nat j)))]
       /\ matched_keywords v =
          g_include_keywords
            (_extract_group_fields ascii_lower first (default_group_name (1 + N.of_nat j)))
       /\ blocked_keywords v = [].
Proof.
  apply (first_matching_group_wins ascii_lower [group_verified; group_upper]
           (Some sample_text) 1 group_upper).
  - reflexivity.
  - apply evaluate_group_matched. vm_compute. eauto.
Defined.

Example two_matching_groups_report_the_first :
  matched_groups
    (evaluate_keyword_rules ascii_lower [group_verified; group_upper] (Some sample_text))
  = [py "组2"].
Proof. vm_compute. reflexivity. Qed.


(** [TaskCreate] on the payloads of C3. *)
Example TaskCreate_ai_without_description :
  TaskCreate.create
    {| TaskCreate.task_name := py "Sony A7M4";
       TaskCreate.enabled := true;
       TaskCreate.keyword := py "a7m4";
       TaskCreate.description := Some (py "");
       TaskCreate.max_pages := 3%Z;
       TaskCreate.personal_only := true;
       TaskCreate.min_price := None;
       TaskCreate.max_price := None;
       TaskCreate.cron := None;
       TaskCreate.ai_prompt_base_file := py "prompts/base_prompt.txt";
       TaskCreate.ai_prompt_criteria_file := py "prompts/a7m4_criteria.txt";
       TaskCreate.account_state_file := None;
       TaskCreate.free_shipping := true;
       TaskCreate.new_publish_option := None;
       TaskCreate.region := None;
       TaskCreate.decision_mode := AI;
       TaskCreate.keyword_rule_groups := [] |}
  = Raise (ValidationError (py "AI 判断模式下，详细需求(description)不能为空。")).
Proof. vm_compute. reflexivity. Qed.

Example TaskCreate_keyword_without_include :
  TaskCreate.create
    {| TaskCreate.task_name := py "Sony A7M4";
       TaskCreate.enabled := true;
       TaskCreate.keyword := py "a7m4";
       TaskCreate.description := Some (py "全画幅相机");
       TaskCreate.max_pages := 3%Z;
       TaskCreate.personal_only := true;
       TaskCreate.min_price := None;
       TaskCreate.max_price := None;
       TaskCreate.cron := None;
       TaskCreate.ai_prompt_base_file := py "prompts/base_prompt.txt";
       TaskCreate.ai_prompt_criteria_file := py "prompts/a7m4_criteria.txt";
       TaskCreate.account_state_file := None;
       TaskCreate.free_shipping := true;
       TaskCreate.new_publish_option := None;
       TaskCreate.region := None;
       TaskCreate.decision_mode := KEYWORD;
       TaskCreate.keyword_rule_groups :=
         [{| name := None; include_keywords := []; exclude_keywords := [py "面交"];
            fields_set := {[ py "exclude_keywords" ]} |}] |}
  = Raise (ValidationError (py "关键词判断模式下，至少需要一个包含关键词。")).
Proof. vm_compute. reflexivity. Qed.

(** A Task that got its rule groups from an update holds them as dicts; the
    same update again stores the same dicts and returns the Task. *)
Example apply_update_same_groups :
  Task.apply_update task_ai_with_description (update_groups [camera_group])
  = task_ai_with_description.
Proof. reflexivity. Qed.

(** An update can set an attribute to [None]. *)
Example apply_update_sets_none :
  Task.decision_mode
    (Task.apply_update task_ai_with_description
       {| TaskUpdate.task_name := Unset; TaskUpdate.enabled := Unset;
          TaskUpdate.keyword := Unset; TaskUpdate.description := Unset;
          TaskUpdate.max_pages := Unset; TaskUpdate.personal_only := Unset;
          TaskUpdate.min_price := Unset; TaskUpdate.max_price := Unset;
          TaskUpdate.cron := Unset; TaskUpdate.ai_prompt_base_file := Unset;
          TaskUpdate.ai_prompt_criteria_file := Unset;
          TaskUpdate.account_state_file := Unset; TaskUpdate.free_shipping := Unset;
          TaskUpdate.new_publish_option := Unset; TaskUpdate.region := Unset;
          TaskUpdate.decision_mode := Set_ None;
          TaskUpdate.keyword_rule_groups := Unset;
          TaskUpdate.is_running := Unset |})
  = None.
Proof. reflexivity. Qed.

Example convert_price_to_str_examples :
  TaskCreate.convert_price_to_str unit sample_float_str (VFloat ()) = VStr (py "19.5")
  /\ TaskCreate.convert_price_to_str unit sample_float_str (VInt 20) = VStr (py "20")
  /\ TaskCreate.convert_price_to_str unit sample_float_str (VStr (py "null")) = VNone
  /\ TaskUpdate.convert_price_to_str unit sample_float_str (VStr (py "19.5"))
     = VStr (py "19.5").
Proof. vm_compute. done. Qed.

(** ** Keyword lists at the DTO boundary *)

(** *** Splitting at newlines and commas *)

Lemma re_split_scan_cons c rest :
  re_split_scan (c :: rest)
  = if is_delimiter c then
      match rest with
      | d :: _ =>
          if is_delimiter d then re_split_scan rest
          else ([], (re_split_scan rest).1 :: (re_split_scan rest).2)
      | [] => ([], (re_split_scan rest).1 :: (re_split_scan rest).2)
      end
    else (c :: (re_split_scan rest).1, (re_split_scan rest).2).
Proof.
  cbn [re_split_scan]. destruct (re_split_scan rest) as [w ws].
  destruct (is_delimiter c), rest as [|d rest]; try done.
Qed.

Lemma re_split_scan_delimiter rest : forall d,
  is_delimiter d = true -> (re_split_scan (d :: rest)).1 = [].
Proof.
  induction rest as [|d' rest IH]; intros d Hd; rewrite re_split_scan_cons, Hd; [done|].
  destruct (is_delimiter d') eqn:Hd'; [by apply IH | done].
Qed.

Lemma re_split_scan_app_free w rest :
  Forall (fun c => is_delimiter c = false) w ->
  re_split_scan (w ++ rest) = (w ++ (re_split_scan rest).1, (re_split_scan rest).2).
Proof.
  induction 1 as [|c w Hc _ IH]; [cbn [app]; by destruct (re_split_scan rest)|].
  cbn [app]. rewrite re_split_scan_cons, IH, Hc. done.
Qed.

Lemma re_split_delimiters_unfold s :
  re_split_delimiters s = (re_split_scan s).1 :: (re_split_scan s).2.
Proof. unfold re_split_delimiters. by destruct (re_split_scan s). Qed.

(** A leading delimiter adds at most an empty field. *)
Lemma re_split_delimiters_cons_delimiter d rest :
  is_delimiter d = true ->
  filter (fun x => x <> []) (re_split_delimiters (d :: rest))
  = filter (fun x => x <> []) (re_split_delimiters rest).
Proof.
  intros Hd. rewrite !re_split_delimiters_unfold, re_split_scan_cons, Hd.
  destruct rest as [|d' rest]; [by rewrite filter_cons_False by naive_solver|].
  destruct (is_delimiter d') eqn:Hd'; [done|].
  cbn [fst snd]. by rewrite (filter_cons_False _ []) by naive_solver.
Qed.

Lemma re_split_delimiters_separator sep rest :
  Forall (fun c => is_delimiter c = true) sep ->
  filter (fun x => x <> []) (re_split_delimiters (sep ++ rest))
  = filter (fun x => x <> []) (re_split_delimiters rest).
Proof.
  induction 1 as [|d sep Hd _ IH]; [done|].
  cbn [app]. by rewrite re_split_delimiters_cons_delimiter.
Qed.

Lemma re_split_delimiters_field w d rest :
  Forall (fun c => is_delimiter c = false) w ->
  is_delimiter d = true ->
  filter (fun x => x <> []) (re_split_delimiters (w ++ d :: rest))
  = filter (fun x => x <> []) [w]
    ++ filter (fun x => x <> []) (re_split_delimiters rest).
Proof.
  intros Hw Hd.
  rewrite <- (re_split_delimiters_cons_delimiter d rest Hd).
  rewrite !re_split_delimiters_unfold, re_split_scan_app_free by done.
  cbn [fst snd]. rewrite re_split_scan_delimiter by done. rewrite app_nil_r.
  rewrite !filter_cons, filter_nil.
  destruct (decide (w <> [])); destruct (decide (@nil N <> [])); done.
Qed.

(** The fields of a join of delimiter-free items are the items, empty ones
    apart. *)
Lemma re_split_delimiters_join sep items :
  sep <> [] ->
  Forall (fun c => is_delimiter c = true) sep ->
  Forall (Forall (fun c => is_delimiter c = false)) items ->
  filter (fun x => x <> []) (re_split_delimiters (join sep items))
  = filter (fun x => x <> []) items.
Proof.
  intros Hne Hsep. induction 1 as [|item items Hitem Hitems IH].
  { cbn. by destruct (decide (@nil N <> [])). }
  destruct items as [|item' items].
  - cbn [join]. rewrite re_split_delimiters_unfold.
    rewrite <- (app_nil_r item) at 1 2. rewrite re_split_scan_app_free by done.
    cbn [re_split_scan fst snd]. by rewrite app_nil_r.
  - rewrite join_cons_cons. destruct sep as [|d sep]; [done|].
    apply Forall_cons in Hsep as [Hd Hsep]. cbn [app].
    rewrite re_split_delimiters_field by done.
    rewrite re_split_delimiters_separator by done. rewrite IH.
    rewrite !(filter_cons _ item), filter_nil. by destruct (decide (item <> [])).
Qed.

Section KeywordValuesProperties.

Variable str_lower : pystr -> pystr.

Local Abbreviation step := (_normalize_keyword_values_step str_lower).

Lemma _normalize_keyword_values_fold raw : forall st,
  (forall x, x ∈ st.2 <-> x ∈ str_lower <$> st.1) ->
  NoDup (str_lower <$> st.1) ->
  Forall (fun k => k <> [] /\ str_strip k = k) st.1 ->
  let st' := fold_left step raw st in
  (forall x, x ∈ st'.2 <-> x ∈ str_lower <$> st'.1)
  /\ NoDup (str_lower <$> st'.1)
  /\ Forall (fun k => k <> [] /\ str_strip k = k) st'.1
  /\ (forall k, k ∈ st'.1 -> k ∈ st.1 \/ exists item, item ∈ raw /\ k = str_strip item)
  /\ (forall item, item ∈ raw -> str_strip item <> [] ->
      exists k, k ∈ st'.1 /\ str_lower k = str_lower (str_strip item))
  /\ (forall k, k ∈ st.1 -> k ∈ st'.1).
Proof.
  induction raw as [|item raw IH]; intros st Hseen Hnodup Hshape.
  { cbn. do 3 (split; [done|]). split; [by left|]. split; [|done].
    intros item Hitem. by apply elem_of_nil in Hitem. }
  cbn [fold_left].
  set (text := str_strip item).
  assert (Hstep :
    let st1 := step st item in
    (forall x, x ∈ st1.2 <-> x ∈ str_lower <$> st1.1)
    /\ NoDup (str_lower <$> st1.1)
    /\ Forall (fun k => k <> [] /\ str_strip k = k) st1.1
    /\ (forall k, k ∈ st1.1 -> k ∈ st.1 \/ k = text)
    /\ (text <> [] -> exists k, k ∈ st1.1 /\ str_lower k = str_lower text)
    /\ (forall k, k ∈ st.1 -> k ∈ st1.1)).
  { destruct st as [normalized seen]. cbn [fst snd] in *.
    unfold _normalize_keyword_values_step. fold text.
    destruct (nonempty text) eqn:Hne; cbn [negb].
    - destruct (bool_decide (str_lower text ∈ seen)) eqn:Hin; cbn [fst snd].
      + apply bool_decide_eq_true in Hin. do 3 (split; [done|]).
        split; [by left|]. split; [|done]. intros _.
        apply Hseen, list_elem_of_fmap in Hin as (k & Hk & Hkin). eauto.
      + apply bool_decide_eq_false in Hin. apply nonempty_true in Hne.
        split; [|split; [|split; [|split; [|split]]]].
        * intros x. rewrite elem_of_union, elem_of_singleton, fmap_app, elem_of_app,
            Hseen. cbn. by rewrite list_elem_of_singleton.
        * rewrite fmap_app. apply NoDup_app. split; [done|].
          split; [|apply NoDup_singleton].
          intros x Hx ->%list_elem_of_singleton. apply Hin. by apply Hseen.
        * apply Forall_app. split; [done|]. apply Forall_singleton.
          split; [done | apply str_strip_idempotent].
        * intros k [?| ->%list_elem_of_singleton]%elem_of_app; auto.
        * intros _. exists text. split; [|done]. apply elem_of_app. right. left.
        * intros k Hk. apply elem_of_app. by left.
    - apply nonempty_false in Hne. do 3 (split; [done|]).
      split; [by left|]. split; done. }
  destruct Hstep as (Hseen1 & Hnodup1 & Hshape1 & Hfrom1 & Hcover1 & Hkeep1).
  destruct (IH _ Hseen1 Hnodup1 Hshape1)
    as (Hseen' & Hnodup' & Hshape' & Hfrom' & Hcover' & Hkeep').
  do 3 (split; [done|]). split; [|split].
  - intros k [Hk|(item' & Hitem' & ->)]%Hfrom'.
    + destruct (Hfrom1 k Hk) as [?| ->]; [by left|]. right. exists item. split; [left | done].
    + right. exists item'. split; [by right | done].
  - intros item' [-> | Hin]%elem_of_cons Hne.
    + destruct (Hcover1 Hne) as (k & Hk & Hlow). exists k. split; [by apply Hkeep' | done].
    + by apply Hcover'.
  - intros k Hk. by apply Hkeep', Hkeep1.
Qed.

Lemma _normalize_keyword_values_unfold value :
  exists raw,
    _normalize_keyword_values str_lower value = (fold_left step raw ([], ∅)).1
    /\ (forall items, value = KwList items -> raw = items).
Proof.
  destruct value as [|items|s|n].
  - exists []. split; [done | discriminate].
  - exists items. split; [done|]. by intros ? [= ->].
  - exists (re_split_delimiters s). split; [done | discriminate].
  - exists [str_int n]. split; [done | discriminate].
Qed.

(** X9.  Whatever form the input has, the keywords [_normalize_keyword_values]
    returns are non-empty, stripped and pairwise different even when letter
    case is ignored; for a list input each of them is the stripped form of an
    item, and every item that is not blank is represented up to letter
    case. *)
Theorem _normalize_keyword_values_canonical (value : keyword_input) :
  let out := _normalize_keyword_values str_lower value in
  Forall (fun k => k <> [] /\ str_strip k = k) out
  /\ NoDup (str_lower <$> out)
  /\ forall items, value = KwList items ->
       (forall k, k ∈ out -> exists item, item ∈ items /\ k = str_strip item)
       /\ (forall item, item ∈ items -> ~ blank item ->
           exists k, k ∈ out /\ str_lower k = str_lower (str_strip item)).
Proof.
  intros out. unfold out.
  destruct (_normalize_keyword_values_unfold value) as (raw & -> & Hraw).
  destruct (_normalize_keyword_values_fold raw ([], ∅))
    as (_ & Hnodup & Hshape & Hfrom & Hcover & _);
    [set_solver | constructor | constructor |].
  do 2 (split; [done|]). intros items ->%Hraw. split.
  - intros k [Hnil|?]%Hfrom; [by apply elem_of_nil in Hnil | done].
  - intros item Hitem Hblank. apply Hcover; [done|]. by rewrite str_strip_nil.
Qed.

Lemma _normalize_keyword_values_fixed l : forall acc seen,
  (forall x, x ∈ seen <-> x ∈ str_lower <$> acc) ->
  NoDup (str_lower <$> l) ->
  (forall k, k ∈ l -> (str_lower k ∉ str_lower <$> acc) /\ k <> [] /\ str_strip k = k) ->
  (fold_left step l (acc, seen)).1 = acc ++ l.
Proof.
  induction l as [|k l IH]; intros acc seen Hseen Hnodup Hl.
  { by rewrite app_nil_r. }
  destruct (Hl k) as (Hacc & Hne & Hfix); [left|].
  rewrite fmap_cons in Hnodup. apply NoDup_cons in Hnodup as [Hk Hnodup].
  cbn [fold_left]. unfold _normalize_keyword_values_step at 2. rewrite Hfix.
  apply nonempty_true in Hne. rewrite Hne. cbn [negb].
  rewrite bool_decide_eq_false_2 by (by rewrite Hseen).
  rewrite IH; [by rewrite <- app_assoc | | done |].
  - intros x. rewrite elem_of_union, elem_of_singleton, fmap_app, elem_of_app, Hseen.
    cbn. by rewrite list_elem_of_singleton.
  - intros k' Hk'. destruct (Hl k') as (Hacc' & Hne' & Hfix'); [by right|].
    split; [|done]. rewrite fmap_app, elem_of_app. cbn. rewrite list_elem_of_singleton.
    intros [?|Heq]; [done|]. apply Hk. rewrite <- Heq. by apply list_elem_of_fmap_2.
Qed.

(** X10.  Normalizing the list [_normalize_keyword_values] returned gives the
    same list. *)
Theorem _normalize_keyword_values_idempotent (value : keyword_input) :
  _normalize_keyword_values str_lower (KwList (_normalize_keyword_values str_lower value))
  = _normalize_keyword_values str_lower value.
Proof.
  destruct (_normalize_keyword_values_unfold value) as (raw & Hout & _).
  destruct (_normalize_keyword_values_fold raw ([], ∅))
    as (_ & Hnodup & Hshape & _);
    [set_solver | constructor | constructor |].
  rewrite <- Hout in Hnodup, Hshape.
  cbn [_normalize_keyword_values].
  rewrite _normalize_keyword_values_fixed; [done | set_solver | done |].
  intros k Hk. split; [apply not_elem_of_nil|].
  rewrite Forall_forall in Hshape. by apply Hshape.
Qed.

Lemma _normalize_keyword_values_skips_empty raw : forall st,
  fold_left step raw st = fold_left step (filter (fun x => x <> []) raw) st.
Proof.
  induction raw as [|item raw IH]; intros st; [done|].
  destruct (decide (item = [])) as [-> | Hne].
  - rewrite filter_cons_False by naive_solver. cbn [fold_left]. rewrite <- IH.
    by destruct st.
  - rewrite filter_cons_True by done. cbn [fold_left]. apply IH.
Qed.

(** X11.  A keyword field given as one string of items separated by commas or
    newlines normalizes to the same list as the list of those items. *)
Theorem _normalize_keyword_values_string_or_list (sep : pystr) (items : list pystr) :
  sep <> [] ->
  Forall (fun c => is_delimiter c = true) sep ->
  Forall (Forall (fun c => is_delimiter c = false)) items ->
  _normalize_keyword_values str_lower (KwStr (join sep items))
  = _normalize_keyword_values str_lower (KwList items).
Proof.
  intros Hne Hsep Hitems. cbn [_normalize_keyword_values].
  rewrite _normalize_keyword_values_skips_empty.
  rewrite (_normalize_keyword_values_skips_empty items).
  by rewrite re_split_delimiters_join.
Qed.

(** X12.  The name of a validated [KeywordRuleGroup] is [None] or a non-empty
    stripped text, and the engine reports it unchanged (the positional name
    for [None]), whether the group reaches it as an object or as a dict. *)
Theorem KeywordRuleGroup_name_reaches_engine
    (raw_name : option pystr) (raw_include raw_exclude : keyword_input)
    (fallback_name : pystr) :
  let group := KeywordRuleGroup_create str_lower raw_name raw_include raw_exclude in
  let as_dict :=
    GroupDict {| get_name := name group;
                 get_include_keywords := Some (include_keywords group);
                 get_exclude_keywords := Some (exclude_keywords group) |} in
  match name group with
  | None => True
  | Some n => n <> [] /\ str_strip n = n
  end
  /\ g_name (_extract_group_fields str_lower (GroupObject group) fallback_name)
     = default fallback_name (name group)
  /\ _extract_group_fields str_lower as_dict fallback_name
     = _extract_group_fields str_lower (GroupObject group) fallback_name.
Proof.
  intros group as_dict. unfold as_dict, group, KeywordRuleGroup_create.
  cbn [name include_keywords exclude_keywords].
  split; [|split; [|done]]; unfold normalize_name; destruct raw_name as [s|]; try done.
  - destruct (nonempty (str_strip s)) eqn:Hne; [|done].
    split; [by apply nonempty_true | apply str_strip_idempotent].
  - unfold _extract_group_fields. cbn [name g_name].
    destruct (nonempty (str_strip s)) eqn:Hne; [|done].
    destruct (str_strip s) as [|c t] eqn:Hs; [done|].
    cbn [default from_option id]. rewrite <- Hs. apply str_strip_idempotent.
Qed.

End KeywordValuesProperties.

(** ** Task DTOs: the payloads that are accepted *)

Lemma decision_payload_checks (mode : decision_mode) (description : option pystr)
    (groups : list KeywordRuleGroup) :
  (bool_decide (mode = AI)
   && negb (nonempty (str_strip (default (py "") description))) = false
   /\ bool_decide (mode = KEYWORD) && negb (_has_valid_keyword_groups groups) = false)
  <-> decision_payload_ok mode description groups.
Proof.
  unfold decision_payload_ok. change (py "") with (@nil N).
  destruct mode; cbn [bool_decide andb].
  - rewrite bool_decide_eq_true_2, bool_decide_eq_false_2 by done. cbn [andb].
    rewrite negb_false_iff, <- not_false_iff_true, nonempty_false, str_strip_nil.
    tauto.
  - rewrite bool_decide_eq_false_2, bool_decide_eq_true_2 by done. cbn [andb].
    rewrite negb_false_iff, <- not_false_iff_true, has_valid_keyword_groups_false.
    tauto.
Qed.

Lemma validator_outcome {V} (values : V) (c1 c2 : bool) (m1 m2 : pystr) (ok : Prop) :
  (c1 = false /\ c2 = false <-> ok) ->
  let r :=
    match (if c1 then Raise (ValueError m1)
           else if c2 then Raise (ValueError m2) else Ok values) with
    | Raise (ValueError msg) => Raise (ValidationError msg)
    | r => r
    end in
  (r = Ok values <-> ok) /\ ((exists msg, r = Raise (ValidationError msg)) <-> ~ ok).
Proof.
  intros Hok r. unfold r. rewrite <- Hok. clear.
  destruct c1, c2; cbn; (split; split); intros H;
    try match type of H with
        | ex _ => destruct H as [msg H]; discriminate H
        | _ /\ _ => destruct H as [H1 H2]; discriminate
        end;
    try discriminate H; try done;
    try (intros [? ?]; discriminate); try (by eexists);
    try (exfalso; apply H; done).
Qed.

(** X13.  [TaskCreate] and [TaskGenerateRequest] accept a payload exactly
    when the prerequisite of its decision mode is met (AI: a description that
    is not blank; keyword: some rule group with an include keyword); every
    other payload fails with a validation error, and nothing else of the
    payload is looked at. *)
Theorem decision_mode_payload_accepted_iff
    (create : TaskCreate.t) (generate : TaskGenerateRequest.t) :
  ((TaskCreate.create create = Ok create
    <-> decision_payload_ok (TaskCreate.decision_mode create)
          (TaskCreate.description create) (TaskCreate.keyword_rule_groups create))
   /\ ((exists msg, TaskCreate.create create = Raise (ValidationError msg))
       <-> ~ decision_payload_ok (TaskCreate.decision_mode create)
             (TaskCreate.description create) (TaskCreate.keyword_rule_groups create)))
  /\ ((TaskGenerateRequest.create generate = Ok generate
       <-> decision_payload_ok (TaskGenerateRequest.decision_mode generate)
             (TaskGenerateRequest.description generate)
             (TaskGenerateRequest.keyword_rule_groups generate))
      /\ ((exists msg, TaskGenerateRequest.create generate = Raise (ValidationError msg))
          <-> ~ decision_payload_ok (TaskGenerateRequest.decision_mode generate)
                (TaskGenerateRequest.description generate)
                (TaskGenerateRequest.keyword_rule_groups generate))).
Proof.
  split.
  - apply (validator_outcome create), decision_payload_checks.
  - apply (validator_outcome generate), decision_payload_checks.
Qed.

Section StoredGroups.

Variable str_lower : pystr -> pystr.

(** The engine reads from the dump of a model the fields of the model. *)
Lemma _extract_group_fields_dumped (group : KeywordRuleGroup) (fallback_name : pystr) :
  defaults_where_unset group ->
  _extract_group_fields str_lower
    (as_raw_group (StoredDict (dict_exclude_unset group))) fallback_name
  = _extract_group_fields str_lower (GroupObject group) fallback_name.
Proof.
  intros (Hname & Hinclude & Hexclude).
  unfold _extract_group_fields, as_raw_group, dict_exclude_unset, dump_entry.
  cbn [get_name get_include_keywords get_exclude_keywords
       dump_name dump_include_keywords dump_exclude_keywords].
  repeat case_bool_decide; cbn [field_value default from_option id];
    rewrite ?Hname, ?Hinclude, ?Hexclude by done; done.
Qed.

(** The verdict depends on the groups through the fields extracted from
    them. *)
Lemma evaluate_groups_extracted (groups groups' : list raw_group) :
  Forall2 (fun g g' => forall fallback_name,
             _extract_group_fields str_lower g fallback_name
             = _extract_group_fields str_lower g' fallback_name) groups groups' ->
  forall index text reasons,
    evaluate_groups str_lower index groups text reasons
    = evaluate_groups str_lower index groups' text reasons.
Proof.
  induction 1 as [|g g' groups groups' Hg _ IH]; intros index text reasons; [done|].
  cbn [evaluate_groups]. rewrite Hg.
  destruct (evaluate_group _ text); [apply IH | done].
Qed.

(** X14.  An update that sets [keyword_rule_groups] leaves the Task holding
    plain dicts, one for each group of the update with the keys that were
    set.  [_has_valid_keyword_groups] finds no include keyword in them,
    whatever the groups are, while the engine reads from each dict the fields
    of the model it came from: its verdict on the groups the Task holds is its
    verdict on the groups of the update. *)
Theorem apply_update_stores_groups_as_dicts
    (t : Task.t) (u : TaskUpdate.t) (groups : list KeywordRuleGroup)
    (search_text : option pystr) :
  TaskUpdate.keyword_rule_groups u = Set_ (Some groups) ->
  Forall defaults_where_unset groups ->
  let stored := default [] (Task.keyword_rule_groups (Task.apply_update t u)) in
  stored = map (fun group => StoredDict (dict_exclude_unset group)) groups
  /\ _has_valid_keyword_groups_stored stored = false
  /\ evaluate_keyword_rules str_lower (map as_raw_group stored) search_text
     = evaluate_keyword_rules str_lower (map GroupObject groups) search_text.
Proof.
  intros Hu Hgroups stored.
  assert (Hstored :
    stored = map (fun group => StoredDict (dict_exclude_unset group)) groups).
  { unfold stored. cbn [Task.apply_update Task.keyword_rule_groups]. by rewrite Hu. }
  split; [done|]. rewrite Hstored. clear stored Hstored Hu. split.
  - unfold _has_valid_keyword_groups_stored.
    destruct (negb (nonempty _)); [done|].
    induction groups as [|group groups IH]; [done|].
    cbn [map existsb getattr_include_keywords default from_option nonempty orb].
    apply IH. by apply Forall_cons in Hgroups as [_ ?].
  - rewrite map_map.
    assert (Hext :
      Forall2 (fun g g' => forall fallback_name,
                 _extract_group_fields str_lower g fallback_name
                 = _extract_group_fields str_lower g' fallback_name)
        (map (fun group => as_raw_group (StoredDict (dict_exclude_unset group))) groups)
        (map GroupObject groups)).
    { induction Hgroups as [|o os Ho _ IH]; constructor; [|done].
      intros fallback_name. by apply _extract_group_fields_dumped. }
    unfold evaluate_keyword_rules.
    destruct (negb (nonempty (normalize_text str_lower search_text))); [done|].
    destruct groups as [|group groups]; [done|].
    by apply evaluate_groups_extracted.
Qed.

End StoredGroups.

Lemma copy_update_idempotent {A} (current : option A) (f : field A) :
  copy_update (copy_update current f) f = copy_update current f.
Proof. by destruct f. Qed.

Lemma copy_update_commute {A} (current : option A) (f g : field A) :
  unset_in_one f g ->
  copy_update (copy_update current f) g = copy_update (copy_update current g) f.
Proof. intros [-> | ->]; [by destruct g | by destruct f]. Qed.

Lemma dict_exclude_unset_groups_unset (f g : field (list KeywordRuleGroup)) :
  unset_in_one f g ->
  unset_in_one (dict_exclude_unset_groups f) (dict_exclude_unset_groups g).
Proof. intros [-> | ->]; [by left | by right]. Qed.

(** X15.  Applying the same update twice gives what applying it once gives,
    and two updates that set no field in common can be applied in either
    order. *)
Theorem apply_update_composes (t : Task.t) (u1 u2 : TaskUpdate.t) :
  Task.apply_update (Task.apply_update t u1) u1 = Task.apply_update t u1
  /\ (touch_different_fields u1 u2 ->
      Task.apply_update (Task.apply_update t u1) u2
      = Task.apply_update (Task.apply_update t u2) u1).
Proof.
  split.
  - unfold Task.apply_update. cbn -[dict_exclude_unset_groups].
    f_equal; apply copy_update_idempotent.
  - intros H. unfold touch_different_fields in H.
    repeat (destruct H as [?H H]).
    unfold Task.apply_update. cbn -[dict_exclude_unset_groups].
    f_equal; apply copy_update_commute; try done.
    by apply dict_exclude_unset_groups_unset.
Qed.

(** X16.  A Task is never startable and stoppable at once, an enabled Task is
    always one of the two, and after an update of [is_running] the Task is
    stoppable exactly when it was set running and startable exactly when it
    is enabled and was set not running. *)
Theorem can_start_can_stop_lifecycle (t : Task.t) (running : bool) :
  let t' := Task.apply_update t (update_running running) in
  can_start t && can_stop t = false
  /\ (Task.enabled t = Some true -> can_start t = negb (can_stop t))
  /\ can_stop t' = running
  /\ can_start t' = is_true (Task.enabled t) && negb running
  /\ Task.enabled t' = Task.enabled t.
Proof.
  unfold can_start, can_stop, is_true. cbn.
  destruct (Task.enabled t) as [[]|], (Task.is_running t) as [[]|], running;
    repeat split; try done; intros [=].
Qed.

(** ** Blank inputs of [TaskGenerateRequest] *)

(** X17.  The validators of [cron], [account_state_file], [new_publish_option]
    and [region] of [TaskGenerateRequest] are the same function: the empty
    string, [null] and [undefined] become [None] and every other value is
    passed on as it is, numbers included; the result is never one of the
    three strings, a second application changes nothing, and on strings and
    [None] the price validator does the same. *)
Theorem TaskGenerateRequest_blank_inputs_become_none
    (pyfloat : Type) (float_str : pyfloat -> pystr) (v : pyvalue pyfloat) :
  let blank_input s := s = py "" \/ s = py "null" \/ s = py "undefined" in
  let conv := TaskGenerateRequest.empty_str_to_none pyfloat in
  TaskGenerateRequest.empty_account_to_none pyfloat v = conv v
  /\ TaskGenerateRequest.empty_str_to_none_for_strings pyfloat v = conv v
  /\ (conv v = VNone <-> v = VNone \/ exists s, v = VStr s /\ blank_input s)
  /\ (conv v <> VNone -> conv v = v)
  /\ (forall s, conv v = VStr s -> ~ blank_input s)
  /\ conv (conv v) = conv v
  /\ (forall s, TaskGenerateRequest.convert_price_to_str pyfloat float_str (VStr s)
                = conv (VStr s))
  /\ TaskGenerateRequest.convert_price_to_str pyfloat float_str
       (conv v)
     = TaskGenerateRequest.convert_price_to_str pyfloat float_str v.
Proof.
  intros blank_input conv. unfold blank_input, conv.
  unfold TaskGenerateRequest.empty_account_to_none,
    TaskGenerateRequest.empty_str_to_none_for_strings,
    TaskGenerateRequest.empty_str_to_none,
    TaskGenerateRequest.convert_price_to_str.
  destruct v as [|s| | | | |]; try (repeat split; (done || naive_solver)).
  destruct (bool_decide (s = py "")) eqn:H1;
    destruct (bool_decide (s = py "null")) eqn:H2;
    destruct (bool_decide (s = py "undefined")) eqn:H3;
    cbn [orb];
    try apply bool_decide_eq_true in H1; try apply bool_decide_eq_true in H2;
    try apply bool_decide_eq_true in H3;
    try apply bool_decide_eq_false in H1; try apply bool_decide_eq_false in H2;
    try apply bool_decide_eq_false in H3;
    repeat split; try done; try naive_solver.
  all: try (intros _; right; exists s; naive_solver).
  all: try (rewrite !bool_decide_eq_false_2 by done; done).
Qed.

(** ** The AI client and its request parameters *)

(** X18.  The configuration the module checks before creating the AI client
    is complete whenever only a Gemini key is configured; in every other case
    it is complete exactly when both [OPENAI_BASE_URL] and [OPENAI_MODEL_NAME]
    are set and non-empty; and an API key is resolved exactly when one of the
    two keys is set and non-empty, which the check does not look at. *)
Theorem ai_config_complete_iff
    (env : option (gmap pystr pystr)) (os_environ : gmap pystr pystr) :
  let source := env_or_environ env os_environ in
  let openai := source !! py "OPENAI_API_KEY" in
  let gemini := source !! py "GEMINI_API_KEY" in
  let explicit_url := source !! py "OPENAI_BASE_URL" in
  let explicit_model := source !! py "OPENAI_MODEL_NAME" in
  let r := resolve_ai_runtime_config env os_environ in
  (is_gemini_openai_compat r = true -> ai_config_complete r = true)
  /\ (is_gemini_openai_compat r = false ->
      (ai_config_complete r = true
       <-> truthy explicit_url = true /\ truthy explicit_model = true))
  /\ (truthy (api_key r) = true <-> truthy openai = true \/ truthy gemini = true).
Proof.
  intros source openai gemini explicit_url explicit_model r.
  unfold r, resolve_ai_runtime_config, ai_config_complete.
  fold source. fold openai gemini explicit_url explicit_model.
  cbn [api_key base_url model_name is_gemini_openai_compat].
  split; [|split].
  - intros ->. by destruct explicit_url as [[|]|], explicit_model as [[|]|].
  - intros ->. destruct explicit_url as [[|]|], explicit_model as [[|]|]; cbn; naive_solver.
  - unfold opt_or. destruct (truthy openai) eqn:Ho; naive_solver.
Qed.

Section RequestParamsProperties.

Variable ENABLE_THINKING : bool.
Variable ENABLE_RESPONSE_FORMAT : bool.
Variable pyfloat : Type.

Local Abbreviation request_params :=
  (get_ai_request_params ENABLE_THINKING ENABLE_RESPONSE_FORMAT pyfloat).

Lemma get_ai_request_params_lookup kwargs k :
  request_params kwargs !! k
  = if bool_decide (k = py "response_format") then
      if ENABLE_RESPONSE_FORMAT then kwargs !! k else None
    else if bool_decide (k = py "extra_body") then
      if ENABLE_THINKING
      then Some (VDict [(py "enable_thinking", VBool false)])
      else kwargs !! k
    else kwargs !! k.
Proof.
  assert (Hkeys : py "extra_body" <> py "response_format") by (by vm_compute).
  unfold get_ai_request_params.
  set (kwargs1 := if ENABLE_THINKING then _ else kwargs).
  assert (H1 : forall k', kwargs1 !! k'
    = if bool_decide (k' = py "extra_body") then
        if ENABLE_THINKING
        then Some (VDict [(py "enable_thinking", VBool false)])
        else kwargs !! k'
      else kwargs !! k').
  { intros k'. unfold kwargs1. destruct ENABLE_THINKING; [|by case_bool_decide].
    case_bool_decide as Hk; [subst; apply lookup_insert_eq|].
    by rewrite lookup_insert_ne. }
  destruct (decide (k = py "response_format")) as [-> | Hk].
  - rewrite (bool_decide_eq_true_2 (py "response_format" = py "response_format")) by done.
    destruct ENABLE_RESPONSE_FORMAT; cbn [negb andb].
    + rewrite H1. by rewrite bool_decide_eq_false_2.
    + case_bool_decide as Hin; [apply lookup_delete_eq | by apply eq_None_not_Some].
  - rewrite (bool_decide_eq_false_2 (k = py "response_format")) by done.
    rewrite <- H1.
    destruct (negb ENABLE_RESPONSE_FORMAT && _); [by rewrite lookup_delete_ne | done].
Qed.

(** X19.  [get_ai_request_params] changes at most two of the keyword
    arguments: [extra_body] is set to [{"enable_thinking": False}] when
    [ENABLE_THINKING] is on (replacing a value the caller gave), and
    [response_format] is removed when [ENABLE_RESPONSE_FORMAT] is off; every
    other argument is passed on, an absent [response_format] is no error, and
    a second application changes nothing. *)
Theorem get_ai_request_params_effects (kwargs : gmap pystr (pyvalue pyfloat)) :
  let out := request_params kwargs in
  (forall k, k <> py "extra_body" -> k <> py "response_format" -> out !! k = kwargs !! k)
  /\ out !! py "extra_body"
     = (if ENABLE_THINKING
        then Some (VDict [(py "enable_thinking", VBool false)])
        else kwargs !! py "extra_body")
  /\ out !! py "response_format"
     = (if ENABLE_RESPONSE_FORMAT then kwargs !! py "response_format" else None)
  /\ request_params out = out.
Proof.
  assert (Hkeys : py "extra_body" <> py "response_format") by (by vm_compute).
  intros out. unfold out. split; [|split; [|split]].
  - intros k H1 H2. rewrite get_ai_request_params_lookup.
    by rewrite !bool_decide_eq_false_2.
  - rewrite get_ai_request_params_lookup.
    rewrite bool_decide_eq_false_2 by done. by rewrite bool_decide_eq_true_2.
  - rewrite get_ai_request_params_lookup. by rewrite bool_decide_eq_true_2.
  - apply map_eq. intros k. rewrite !get_ai_request_params_lookup.
    case_bool_decide; [by destruct ENABLE_RESPONSE_FORMAT|].
    case_bool_decide; [by destruct ENABLE_THINKING | done].
Qed.

End RequestParamsProperties.

(** ** The properties on concrete inputs *)

Lemma ascii_lower_nonempty w : ascii_lower w = [] -> w = [].
Proof. by destruct w. Qed.

Lemma _normalize_keywords_idempotent_witness :
  _normalize_keywords ascii_lower
    (_normalize_keywords ascii_lower [py " Sony "; py "SONY"; py "A7M4"])
  = _normalize_keywords ascii_lower [py " Sony "; py "SONY"; py "A7M4"].
Proof.
  apply (_normalize_keywords_idempotent ascii_lower
           ascii_lower_nil ascii_lower_cut ascii_lower_spaceless ascii_lower_idempotent).
Defined.

Lemma evaluate_keyword_rules_on_normal_form_witness :
  evaluate_keyword_rules ascii_lower [group_verified]
    (Some (normalize_text ascii_lower (Some (py "  Sony  A7M4 验货宝 "))))
  = evaluate_keyword_rules ascii_lower [group_verified] (Some (py "  Sony  A7M4 验货宝 ")).
Proof.
  destruct (evaluate_keyword_rules_on_normal_form ascii_lower unit sample_float_str
              ascii_lower_nil ascii_lower_cut ascii_lower_spaceless ascii_lower_idempotent)
    as (_ & H & _).
  apply H.
Defined.

Lemma evaluate_keyword_rules_order_independent_witness :
  is_recommended
    (evaluate_keyword_rules ascii_lower [group_canon; group_verified] (Some sample_text))
  = is_recommended
      (evaluate_keyword_rules ascii_lower [group_verified; group_canon] (Some sample_text)).
Proof.
  apply (evaluate_keyword_rules_order_independent ascii_lower
           [group_canon; group_verified] [group_verified; group_canon]).
  apply perm_swap.
Defined.

Lemma evaluate_keyword_rules_without_include_keywords_witness :
  is_recommended
    (evaluate_keyword_rules ascii_lower
       (GroupObject <$> [ {| name := None; include_keywords := [];
                             exclude_keywords := [py "面交"];
                             fields_set := {[ py "exclude_keywords" ]} |} ])
       (Some sample_text))
  = false.
Proof.
  apply (evaluate_keyword_rules_without_include_keywords ascii_lower
           [ {| name := None; include_keywords := [];
                exclude_keywords := [py "面交"];
                fields_set := {[ py "exclude_keywords" ]} |} ]).
  reflexivity.
Defined.

Lemma build_search_text_contains_every_leaf_witness :
  is_substring (normalize_text ascii_lower (Some (py "包邮"))) sample_text.
Proof.
  destruct (build_search_text_contains_every_leaf ascii_lower unit sample_float_str
              ascii_lower_nil ascii_lower_cut
              sample_record sample_text (py "商品信息")
              (VDict [ (py "商品标题", VStr (py "Sony A7M4 全画幅相机"));
                       (py "当前售价", VStr (py "10000"));
                       (py "商品标签", VList [VStr (py "验货宝"); VStr (py "包邮")]) ]))
    as [H _].
  - vm_compute. reflexivity.
  - left. reflexivity.
  - vm_compute. reflexivity.
  - apply H.
    apply (reaches_dict _ (py "商品标签") (VList [VStr (py "验货宝"); VStr (py "包邮")]));
      [do 2 right; left|].
    apply (reaches_list _ (VStr (py "包邮"))); [right; left | apply reaches_here].
Defined.

Lemma _extract_group_fields_keeps_nonblank_keyword_witness :
  g_include_keywords (_extract_group_fields ascii_lower (GroupObject camera_group) []) <> []
  /\ evaluate_group (_extract_group_fields ascii_lower (GroupObject camera_group) [])
       sample_text
     <> GroupFailed
          (g_name (_extract_group_fields ascii_lower (GroupObject camera_group) [])
           ++ py ": 缺少包含关键词").
Proof.
  apply (_extract_group_fields_keeps_nonblank_keyword ascii_lower
           ascii_lower_nil ascii_lower_cut ascii_lower_spaceless
           ascii_lower_nonempty camera_group [] sample_text (py "a7m4")).
  - left.
  - intros Hb. apply str_strip_nil in Hb. vm_compute in Hb. discriminate Hb.
Defined.

Lemma _normalize_keyword_values_string_or_list_witness :
  _normalize_keyword_values ascii_lower
    (KwStr (join (py ",") [py "sony"; py " A7M4 "; py "Sony"]))
  = _normalize_keyword_values ascii_lower (KwList [py "sony"; py " A7M4 "; py "Sony"]).
Proof.
  apply (_normalize_keyword_values_string_or_list ascii_lower (py ",")
           [py "sony"; py " A7M4 "; py "Sony"]).
  - vm_compute. discriminate.
  - vm_compute. repeat constructor.
  - vm_compute. repeat constructor.
Defined.

Lemma apply_update_stores_groups_as_dicts_witness :
  let stored :=
    default []
      (Task.keyword_rule_groups
         (Task.apply_update task_keyword_with_model
            (update_mode_and_groups KEYWORD [camera_group; include_only_group]))) in
  stored = map (fun group => StoredDict (dict_exclude_unset group))
             [camera_group; include_only_group]
  /\ _has_valid_keyword_groups_stored stored = false
  /\ evaluate_keyword_rules ascii_lower (map as_raw_group stored) (Some sample_text)
     = evaluate_keyword_rules ascii_lower
         (map GroupObject [camera_group; include_only_group]) (Some sample_text).
Proof.
  apply (apply_update_stores_groups_as_dicts ascii_lower task_keyword_with_model
           (update_mode_and_groups KEYWORD [camera_group; include_only_group])
           [camera_group; include_only_group] (Some sample_text)).
  - reflexivity.
  - repeat constructor; intros Hunset; try reflexivity;
      exfalso; apply Hunset; vm_compute; reflexivity.
Defined.

(** The dicts a Task holds after such an update, and the two readings of
    them. *)
Example apply_update_stored_dicts :
  let t := Task.apply_update task_keyword_with_model
             (update_mode_and_groups KEYWORD [include_only_group]) in
  Task.keyword_rule_groups t
  = Some [StoredDict {| dump_name := Unset;
                        dump_include_keywords := Set_ (Some [py "a7m4"]);
                        dump_exclude_keywords := Unset |}]
  /\ _has_valid_keyword_groups_stored (default [] (Task.keyword_rule_groups t)) = false
  /\ _has_valid_keyword_groups [include_only_group] = true
  /\ is_recommended
       (evaluate_keyword_rules ascii_lower
          (map as_raw_group (default [] (Task.keyword_rule_groups t)))
          (Some sample_text)) = true.
Proof. vm_compute. repeat split. Qed.

(** The keyword validator and the request parameters on sample inputs. *)
Example _normalize_keyword_values_delimited :
  _normalize_keyword_values ascii_lower (KwStr (py " Sony ,sony,,A7M4
a7m4 , 佳能"))
  = [py "Sony"; py "A7M4"; py "佳能"].
Proof. vm_compute. reflexivity. Qed.

Example get_ai_request_params_drops_response_format :
  let out :=
    get_ai_request_params true false unit
      (<[py "response_format" := VStr (py "json_object")]>
         (<[py "model" := VStr (py "qwen")]> ∅)) in
  out !! py "response_format" = None
  /\ out !! py "model" = Some (VStr (py "qwen"))
  /\ out !! py "extra_body" = Some (VDict [(py "enable_thinking", VBool false)]).
Proof. vm_compute. repeat split. Qed.
